(** * The connection-to-worker stream supervisor

    A shallow embedding of the WebSocket part of the Node.js backend (the
    server source that follows the README): the two registries
    [recognitionProcesses] and [chatProcesses], [startChatProcess], the
    ['connection'] listener with the closure it creates per connection,
    the stdout framers, the ['message'] and ['close'] listeners and the
    chat restart timer.

    JavaScript strings are sequences of UTF-16 code units, [Buffer] chunks
    are sequences of bytes.  The event loop is a step function over an
    explicit state: every callback the source registers is one event, and
    the environment chooses the events, the time [Date.now()] returns
    during each, and whether [spawn] returns or throws. *)

From Stdlib Require Import NArith Ascii String List Lia.
From stdpp Require Import base option list gmap pretty.

Set Warnings "-register-all".

Local Open Scope N_scope.
Local Open Scope list_scope.

(** ** JavaScript strings *)

(** A JavaScript string: its UTF-16 code units, in order. *)
Abbreviation jsstring := (list N).

(** A literal of the source, as code units (the literals are ASCII). *)
Fixpoint lit (s : string) : jsstring :=
  match s with
  | EmptyString => []
  | String a s' => N_of_ascii a :: lit s'
  end.

(** JSON text for the examples: [lit], with an apostrophe standing for the
    double quote U+0022. *)
Definition jlit (s : string) : jsstring :=
  map (fun c => if c =? 39 then 34 else c) (lit s).

(** The bytes of JSON text for the examples, written like [jlit]. *)
Definition jbytes (s : string) : list Byte.byte :=
  map (fun b => if Byte.eqb b Byte.x27 then Byte.x22 else b) (list_byte_of_string s).

(** ** [Buffer.prototype.toString()]: UTF-8 decoding with replacement

    [data.toString()] with no argument decodes the bytes of the chunk as
    UTF-8 on their own; every maximal ill-formed part, and a sequence cut by
    the end of the chunk, becomes U+FFFD. *)

Inductive Utf8Pending :=
| Idle
| Pend (cp needed lower upper : N).

(** The code units of one code point: a surrogate pair above the BMP. *)
Definition code_units (cp : N) : jsstring :=
  if cp <? 0x10000 then [cp]
  else [0xD800 + (cp - 0x10000) / 0x400; 0xDC00 + (cp - 0x10000) mod 0x400].

Definition between (lo hi b : N) : bool := (lo <=? b) && (b <=? hi).

(** A byte met with no sequence pending. *)
Definition utf8_first (b : N) : jsstring * Utf8Pending :=
  if b <=? 0x7F then ([b], Idle)
  else if between 0xC2 0xDF b then ([], Pend (N.land b 0x1F) 1 0x80 0xBF)
  else if between 0xE0 0xEF b then
    ([], Pend (N.land b 0xF) 2 (if b =? 0xE0 then 0xA0 else 0x80)
                               (if b =? 0xED then 0x9F else 0xBF))
  else if between 0xF0 0xF4 b then
    ([], Pend (N.land b 0x7) 3 (if b =? 0xF0 then 0x90 else 0x80)
                               (if b =? 0xF4 then 0x8F else 0xBF))
  else ([0xFFFD], Idle).

Fixpoint utf8_decode (st : Utf8Pending) (bs : list N) : jsstring :=
  match bs with
  | [] => match st with Idle => [] | Pend _ _ _ _ => [0xFFFD] end
  | b :: bs' =>
      match st with
      | Idle => let '(out, st') := utf8_first b in out ++ utf8_decode st' bs'
      | Pend cp needed lo hi =>
          if between lo hi b then
            let cp' := N.lor (N.shiftl cp 6) (N.land b 0x3F) in
            if needed =? 1 then code_units cp' ++ utf8_decode Idle bs'
            else utf8_decode (Pend cp' (needed - 1) 0x80 0xBF) bs'
          else
            let '(out, st') := utf8_first b in
            0xFFFD :: out ++ utf8_decode st' bs'
      end
  end.

(** A chunk handed to a ['data'] or ['message'] listener. *)
Abbreviation Buffer := (list Byte.byte).

Definition toString (data : Buffer) : jsstring :=
  utf8_decode Idle (map Byte.to_N data).

(** ** [String.prototype.split] on one separator unit, [Array.prototype.pop] *)

Fixpoint split_go (sep : N) (cur s : jsstring) : list jsstring :=
  match s with
  | [] => [cur]
  | c :: s' =>
      if c =? sep then cur :: split_go sep [] s'
      else split_go sep (cur ++ [c]) s'
  end.

(** [s.split('\n')] is [js_split 10 s]: never an empty array. *)
Definition js_split (sep : N) (s : jsstring) : list jsstring :=
  split_go sep [] s.

(** [lines.pop()]: the removed last element ([None] for [undefined] on an
    empty array) and the array that is left. *)
Definition pop {A} (l : list A) : option A * list A :=
  (last l, removelast l).

(** The first three statements of both stdout listeners:
    [buffer += data.toString(); const lines = buffer.split('\n');
     buffer = lines.pop();] give the complete lines and the new [buffer].
    [split] never returns an empty array, so [pop] never returns
    [undefined] here. *)
Definition framer (buffer : jsstring) (data : Buffer) : list jsstring * jsstring :=
  let lines := js_split 10 (buffer ++ toString data) in
  let '(tail, lines) := pop lines in
  (lines, default [] tail).

(** The listener called on each chunk in turn: all the lines it hands to
    [forEach], and the [buffer] left at the end. *)
Fixpoint framer_run (buffer : jsstring) (chunks : list Buffer) : list jsstring * jsstring :=
  match chunks with
  | [] => ([], buffer)
  | data :: rest =>
      let '(lines, tail) := framer buffer data in
      let '(more, final) := framer_run tail rest in
      (lines ++ more, final)
  end.

(** ** [String.prototype.trim] *)

(** WhiteSpace and LineTerminator of ECMAScript. *)
Definition is_ws (c : N) : bool :=
  (c =? 0x9) || (c =? 0xA) || (c =? 0xB) || (c =? 0xC) || (c =? 0xD)
  || (c =? 0x20) || (c =? 0xA0) || (c =? 0x1680) || between 0x2000 0x200A c
  || (c =? 0x2028) || (c =? 0x2029) || (c =? 0x202F) || (c =? 0x205F)
  || (c =? 0x3000) || (c =? 0xFEFF).

Fixpoint trimStart (s : jsstring) : jsstring :=
  match s with
  | [] => []
  | c :: s' => if is_ws c then trimStart s' else s
  end.

Definition trim (s : jsstring) : jsstring :=
  rev (trimStart (rev (trimStart s))).

(** [line.trim() === ''] *)
Definition blank (line : jsstring) : bool :=
  match trim line with [] => true | _ => false end.

(** ** JSON values and the built-ins the handlers call *)

(** What [JSON.parse] returns.  A number is carried as its literal: the
    handlers never compute with one, they only hand it back to
    [JSON.stringify] or to a template literal.  An object is its own
    properties in order, each key once. *)
Inductive json :=
| JNull
| JBool (b : bool)
| JNum (literal : jsstring)
| JStr (s : jsstring)
| JArr (items : list json)
| JObj (props : list (jsstring * json)).

(** A call that returns or throws an [Error] with a [message]. *)
Inductive Completion (A : Type) :=
| Normal (a : A)
| Throw (message : jsstring).
Arguments Normal {A} a.
Arguments Throw {A} message.

(** The built-ins of the JavaScript engine that the handlers use. *)
Class Platform := {
  (** [JSON.parse(text)] *)
  JSON_parse : jsstring -> Completion json;
  (** [JSON.stringify(value)] of a value built from parsed ones *)
  JSON_stringify : json -> jsstring;
  (** the string conversion of a parsed value inside a template literal *)
  ToString : json -> Completion jsstring;
  (** the message of the TypeError of reading property [key] of [null] *)
  null_read_message : jsstring -> jsstring;
  (** text that [trim] empties is no JSON text *)
  JSON_parse_blank : forall s, blank s = true -> exists m, JSON_parse s = Throw m;
  (** a string converts to itself *)
  ToString_string : forall s, ToString (JStr s) = Normal s
}.

Fixpoint assoc (key : jsstring) (props : list (jsstring * json)) : option json :=
  match props with
  | [] => None
  | (k, v) :: rest => if bool_decide (k = key) then Some v else assoc key rest
  end.

(** [data.key] for [data] returned by [JSON.parse] and [key] one of
    [type], [image], [query], which no prototype defines: [None] is
    [undefined]; reading a property of [null] throws. *)
Definition get_prop `{Platform} (data : json) (key : jsstring) : Completion (option json) :=
  match data with
  | JNull => Throw (null_read_message key)
  | JObj props => Normal (assoc key props)
  | _ => Normal None
  end.

(** [`${v}`] *)
Definition template `{Platform} (v : option json) : Completion jsstring :=
  match v with
  | None => Normal (lit "undefined")
  | Some v => ToString v
  end.

(** [Date.now()] in decimal, as [toString()] and [JSON.stringify] print it. *)
Definition decimal (n : N) : jsstring := lit (pretty n).

(** [{ [key]: value, timestamp: Date.now() }]: [JSON.stringify] leaves out a
    property whose value is [undefined]. *)
Definition with_timestamp (key : string) (value : option json) (now : N) : json :=
  JObj (match value with
        | Some v => [(lit key, v)]
        | None => []
        end ++ [(lit "timestamp", JNum (decimal now))]).

(** [{ type: 'system', message }] *)
Definition system_message (message : string) : json :=
  JObj [(lit "type", JStr (lit "system")); (lit "message", JStr (lit message))].

(** ** The state of the server *)

Inductive Kind := Recognition | Chat.

(** [ws.readyState] *)
Inductive ReadyState := CONNECTING | OPEN | CLOSING | CLOSED.

Global Instance ReadyState_eq_dec : EqDecision ReadyState.
Proof. solve_decision. Defined.

(** One accepted connection: the socket and the variables of the closure
    that the ['connection'] listener creates for it. *)
Record WebSocket := {
  clientId : jsstring;
  isChatWs : bool;
  readyState : ReadyState;
  recognitionProcess : option nat;
  chatProcess : option nat;
  (** the arguments of [ws.send], in call order *)
  sent : list jsstring
}.

(** One child process returned by [spawn], with the variables its listeners
    close over. *)
Record ChildProcess := {
  script : Kind;
  owner : jsstring;
  socket : nat;
  (** [buffer] of the stdout listener *)
  buffer : jsstring;
  (** the arguments of [stdin.write], in call order *)
  stdin : list jsstring;
  (** [kill()] has been called on it *)
  killed : bool;
  (** its ['close'] event has fired *)
  closed : bool
}.

(** A callback given to [setTimeout]: [startChatProcess(clientId, ws)]. *)
Record Timer := {
  due : N;
  timer_clientId : jsstring;
  timer_ws : nat
}.

Inductive Level := info | warn | error.

Record State := {
  recognitionProcesses : gmap jsstring nat;
  chatProcesses : gmap jsstring nat;
  sockets : list WebSocket;
  children : list ChildProcess;
  timers : list Timer;
  log : list (Level * jsstring)
}.

Definition initial : State :=
  {| recognitionProcesses := ∅; chatProcesses := ∅; sockets := [];
     children := []; timers := []; log := [] |}.

(** *** Field updates *)

Definition with_recognitionProcesses (f : gmap jsstring nat -> gmap jsstring nat) (st : State) : State :=
  {| recognitionProcesses := f (recognitionProcesses st); chatProcesses := chatProcesses st;
     sockets := sockets st; children := children st; timers := timers st; log := log st |}.

Definition with_chatProcesses (f : gmap jsstring nat -> gmap jsstring nat) (st : State) : State :=
  {| recognitionProcesses := recognitionProcesses st; chatProcesses := f (chatProcesses st);
     sockets := sockets st; children := children st; timers := timers st; log := log st |}.

Definition with_sockets (f : list WebSocket -> list WebSocket) (st : State) : State :=
  {| recognitionProcesses := recognitionProcesses st; chatProcesses := chatProcesses st;
     sockets := f (sockets st); children := children st; timers := timers st; log := log st |}.

Definition with_children (f : list ChildProcess -> list ChildProcess) (st : State) : State :=
  {| recognitionProcesses := recognitionProcesses st; chatProcesses := chatProcesses st;
     sockets := sockets st; children := f (children st); timers := timers st; log := log st |}.

Definition with_timers (f : list Timer -> list Timer) (st : State) : State :=
  {| recognitionProcesses := recognitionProcesses st; chatProcesses := chatProcesses st;
     sockets := sockets st; children := children st; timers := f (timers st); log := log st |}.

Definition with_log (f : list (Level * jsstring) -> list (Level * jsstring)) (st : State) : State :=
  {| recognitionProcesses := recognitionProcesses st; chatProcesses := chatProcesses st;
     sockets := sockets st; children := children st; timers := timers st; log := f (log st) |}.

Definition set_readyState (r : ReadyState) (s : WebSocket) : WebSocket :=
  {| clientId := clientId s; isChatWs := isChatWs s; readyState := r;
     recognitionProcess := recognitionProcess s; chatProcess := chatProcess s; sent := sent s |}.

Definition set_recognitionProcess (p : option nat) (s : WebSocket) : WebSocket :=
  {| clientId := clientId s; isChatWs := isChatWs s; readyState := readyState s;
     recognitionProcess := p; chatProcess := chatProcess s; sent := sent s |}.

Definition set_chatProcess (p : option nat) (s : WebSocket) : WebSocket :=
  {| clientId := clientId s; isChatWs := isChatWs s; readyState := readyState s;
     recognitionProcess := recognitionProcess s; chatProcess := p; sent := sent s |}.

Definition push_sent (m : jsstring) (s : WebSocket) : WebSocket :=
  {| clientId := clientId s; isChatWs := isChatWs s; readyState := readyState s;
     recognitionProcess := recognitionProcess s; chatProcess := chatProcess s;
     sent := sent s ++ [m] |}.

Definition set_buffer (b : jsstring) (c : ChildProcess) : ChildProcess :=
  {| script := script c; owner := owner c; socket := socket c; buffer := b;
     stdin := stdin c; killed := killed c; closed := closed c |}.

Definition push_stdin (m : jsstring) (c : ChildProcess) : ChildProcess :=
  {| script := script c; owner := owner c; socket := socket c; buffer := buffer c;
     stdin := stdin c ++ [m]; killed := killed c; closed := closed c |}.

Definition set_killed (c : ChildProcess) : ChildProcess :=
  {| script := script c; owner := owner c; socket := socket c; buffer := buffer c;
     stdin := stdin c; killed := true; closed := closed c |}.

Definition set_closed (c : ChildProcess) : ChildProcess :=
  {| script := script c; owner := owner c; socket := socket c; buffer := buffer c;
     stdin := stdin c; killed := killed c; closed := true |}.

(** ** The handlers *)

(** What [spawn] does when called: the environment decides.  It returns a
    child with its pipes, or it throws.  A program that cannot be launched
    (ENOENT, EACCES) does not make it throw: the child is returned all the
    same, and the failure is reported on a later tick by the ['error']
    event of that child, [ChildError] below. *)
Inductive SpawnOutcome :=
| Spawned
| SpawnThrows (message : jsstring).

Section Handlers.
Context `{Platform}.

Definition logger (lvl : Level) (message : jsstring) (st : State) : State :=
  with_log (fun l => l ++ [(lvl, message)]) st.

(** [ws.readyState === WebSocket.OPEN] *)
Definition is_open (ws : nat) (st : State) : bool :=
  match sockets st !! ws with
  | Some s => bool_decide (readyState s = OPEN)
  | None => false
  end.

Definition ws_send (ws : nat) (m : jsstring) (st : State) : State :=
  with_sockets (alter (push_sent m) ws) st.

(** [if (ws.readyState === WebSocket.OPEN) { ws.send(JSON.stringify(v)); }] *)
Definition send_if_open (ws : nat) (v : json) (st : State) : State :=
  if is_open ws st then ws_send ws (JSON_stringify v) st else st.

Definition stdin_write (p : nat) (m : jsstring) (st : State) : State :=
  with_children (alter (push_stdin m) p) st.

(** [process.kill()] *)
Definition kill (p : nat) (st : State) : State :=
  with_children (alter set_killed p) st.

(** *** The stdout framers *)

(** The body of [lines.forEach] in [startRecognitionProcess]. *)
Definition recognition_line (ws : nat) (st : State) (line : jsstring) : State :=
  if blank line then st
  else
    match JSON_parse line with
    | Normal result => send_if_open ws result st
    | Throw _ =>
        logger error (lit "Invalid JSON from recognition process: " ++ line) st
    end.

(** The body of [lines.forEach] in [startChatProcess]. *)
Definition chat_line (ws : nat) (st : State) (line : jsstring) : State :=
  if blank line then st
  else
    match JSON_parse line with
    | Normal result =>
        if is_open ws st then
          ws_send ws (JSON_stringify result)
            (logger info (lit "Chat process output: " ++ JSON_stringify result) st)
        else st
    | Throw _ =>
        send_if_open ws
          (system_message "Chat service encountered an issue. Please try again.")
          (logger error (lit "Invalid JSON from chat process: " ++ line) st)
    end.

Definition line_handler (k : Kind) : nat -> State -> jsstring -> State :=
  match k with
  | Recognition => recognition_line
  | Chat => chat_line
  end.

(** [stdout.on('data', ...)]: append, split, keep the tail, handle the
    lines. *)
Definition on_stdout (p : nat) (data : Buffer) (st : State) : State :=
  match children st !! p with
  | None => st
  | Some c =>
      let '(lines, tail) := framer (buffer c) data in
      let st := with_children (alter (set_buffer tail) p) st in
      foldl (line_handler (script c) (socket c)) st lines
  end.

(** [stderr.on('data', ...)] *)
Definition on_stderr (p : nat) (data : Buffer) (st : State) : State :=
  match children st !! p with
  | None => st
  | Some c =>
      logger error
        (match script c with
         | Recognition => lit "Recognition process error: "
         | Chat => lit "Chat process error: "
         end ++ toString data) st
  end.

(** *** Starting workers *)

Definition new_child (k : Kind) (id : jsstring) (ws : nat) : ChildProcess :=
  {| script := k; owner := id; socket := ws; buffer := []; stdin := [];
     killed := false; closed := false |}.

(** [startChatProcess(clientId, ws)]: the state after it and what it
    returns ([None] is [null]). *)
Definition startChatProcess (id : jsstring) (ws : nat) (sp : SpawnOutcome)
    (st : State) : State * option nat :=
  match sp with
  | Spawned =>
      let p := length (children st) in
      let st := with_children (fun l => l ++ [new_child Chat id ws]) st in
      let st := with_chatProcesses (insert id p) st in
      (logger info (lit "Started chat process for client " ++ id) st, Some p)
  | SpawnThrows m =>
      let st := logger error (lit "Failed to start chat process: " ++ m) st in
      (send_if_open ws
         (system_message "Unable to start chat service. Please try again later.") st,
       None)
  end.

(** [startRecognitionProcess()] of connection [ws] *)
Definition startRecognitionProcess (id : jsstring) (ws : nat) (sp : SpawnOutcome)
    (st : State) : State :=
  match sp with
  | Spawned =>
      let p := length (children st) in
      let st := with_children (fun l => l ++ [new_child Recognition id ws]) st in
      let st := with_sockets (alter (set_recognitionProcess (Some p)) ws) st in
      let st := with_recognitionProcesses (insert id p) st in
      logger info (lit "Started recognition process for client " ++ id) st
  | SpawnThrows m =>
      let st := logger error (lit "Failed to start recognition process: " ++ m) st in
      send_if_open ws
        (system_message "Failed to start recognition service. Please try again.") st
  end.

(** [const isChatWs = req.url === '/chat'] *)
Definition classify (url : jsstring) : bool := bool_decide (url = lit "/chat").

Definition kind_of (chat : bool) : Kind := if chat then Chat else Recognition.

(** [wss.on('connection', (ws, req) => ...)] *)
Definition on_connection (now : N) (url : jsstring) (sp : SpawnOutcome)
    (st : State) : State :=
  let id := decimal now in
  let chat := classify url in
  let ws := length (sockets st) in
  let st := with_sockets (fun l => l ++
              [{| clientId := id; isChatWs := chat; readyState := OPEN;
                  recognitionProcess := None; chatProcess := None; sent := [] |}]) st in
  let st := logger info
              (lit "New WebSocket connection established: "
               ++ (if chat then lit "Chat" else lit "Recognition")
               ++ lit " (Client " ++ id ++ lit ")") st in
  if chat then
    let '(st, r) := startChatProcess id ws sp st in
    with_sockets (alter (set_chatProcess r) ws) st
  else startRecognitionProcess id ws sp st.

(** *** Worker exit *)

Definition show_code (code : option N) : jsstring :=
  match code with
  | Some n => decimal n
  | None => lit "null"
  end.

(** [chatProcess.on('close', ...)] and [recognitionProcess.on('close', ...)] *)
Definition on_child_close (now : N) (p : nat) (code : option N) (st : State) : State :=
  match children st !! p with
  | None => st
  | Some c =>
      let st := with_children (alter set_closed p) st in
      match script c with
      | Recognition =>
          let st := logger info
                      (lit "Recognition process closed with code " ++ show_code code) st in
          with_recognitionProcesses (delete (owner c)) st
      | Chat =>
          let st := logger info (lit "Chat process closed with code " ++ show_code code) st in
          let st := with_chatProcesses (delete (owner c)) st in
          if is_open (socket c) st then
            let st := ws_send (socket c)
                        (JSON_stringify
                           (system_message "Chat process terminated, restarting...")) st in
            with_timers (fun l => l ++
              [{| due := now + 1000; timer_clientId := owner c;
                  timer_ws := socket c |}]) st
          else st
      end
  end.

(** The callback of [setTimeout(() => startChatProcess(clientId, ws), 1000)],
    which the event loop runs no earlier than [due]. *)
Definition on_timeout (now : N) (i : nat) (sp : SpawnOutcome) (st : State) : State :=
  match timers st !! i with
  | None => st
  | Some t =>
      if due t <=? now then
        fst (startChatProcess (timer_clientId t) (timer_ws t) sp
               (with_timers (delete i) st))
      else st
  end.

(** *** Client messages *)

(** [v === 'frame'], [v === 'query'] *)
Definition is_string (expected : string) (v : option json) : bool :=
  match v with
  | Some (JStr s) => bool_decide (s = lit expected)
  | _ => false
  end.

(** [ws.on('message', ...)] of a chat connection *)
Definition on_message_chat (now : N) (ws : nat) (message : Buffer) (st : State) : State :=
  match sockets st !! ws with
  | None => st
  | Some s =>
      let catch m :=
        send_if_open ws (system_message "Invalid message format. Please try again.")
          (logger error (lit "WebSocket chat message error: " ++ m) st) in
      match JSON_parse (toString message) with
      | Throw m => catch m
      | Normal data =>
          match get_prop data (lit "type") with
          | Throw m => catch m
          | Normal ty =>
              match chatProcess s with
              | Some p =>
                  if is_string "query" ty then
                    match get_prop data (lit "query") with
                    | Throw m => catch m
                    | Normal q =>
                        match template q with
                        | Throw m => catch m
                        | Normal text =>
                            stdin_write p
                              (JSON_stringify (with_timestamp "query" q now) ++ [10])
                              (logger info (lit "Received chat query: " ++ text) st)
                        end
                    end
                  else st
              | None => st
              end
          end
      end
  end.

(** [ws.on('message', ...)] of a recognition connection *)
Definition on_message_recognition (now : N) (ws : nat) (message : Buffer)
    (st : State) : State :=
  match sockets st !! ws with
  | None => st
  | Some s =>
      let catch m :=
        logger error (lit "WebSocket recognition message error: " ++ m) st in
      match JSON_parse (toString message) with
      | Throw m => catch m
      | Normal data =>
          match get_prop data (lit "type") with
          | Throw m => catch m
          | Normal ty =>
              match recognitionProcess s with
              | Some p =>
                  if is_string "frame" ty then
                    match get_prop data (lit "image") with
                    | Throw m => catch m
                    | Normal image =>
                        stdin_write p
                          (JSON_stringify (with_timestamp "image" image now) ++ [10]) st
                    end
                  else st
              | None => st
              end
          end
      end
  end.

(** *** Client disconnect *)

(** [ws.on('close', ...)], both branches; the socket is [CLOSED] when the
    event fires. *)
Definition on_ws_close (ws : nat) (st : State) : State :=
  match sockets st !! ws with
  | None => st
  | Some s =>
      let st := with_sockets (alter (set_readyState CLOSED) ws) st in
      if isChatWs s then
        let st := logger info
                    (lit "WebSocket chat connection closed for client " ++ clientId s) st in
        match chatProcesses st !! clientId s with
        | Some process =>
            let st := kill process st in
            let st := logger info
                        (lit "Terminated chat process for client " ++ clientId s) st in
            with_chatProcesses (delete (clientId s)) st
        | None => st
        end
      else
        let st := logger info
                    (lit "WebSocket recognition connection closed for client "
                     ++ clientId s) st in
        match recognitionProcesses st !! clientId s with
        | Some process =>
            let st := kill process st in
            let st := logger info
                        (lit "Terminated recognition process for client " ++ clientId s) st in
            with_recognitionProcesses (delete (clientId s)) st
        | None => st
        end
  end.

(** ** The event loop *)

Inductive Event :=
| Connection (url : jsstring) (sp : SpawnOutcome)
| Message (ws : nat) (message : Buffer)
| Closing (ws : nat)
| Close (ws : nat)
| StdoutData (p : nat) (data : Buffer)
| StderrData (p : nat) (data : Buffer)
| ChildClose (p : nat) (code : option N)
| Timeout (i : nat) (sp : SpawnOutcome).

Definition socket_state (ws : nat) (st : State) : option ReadyState :=
  readyState <$> sockets st !! ws.

Definition child_closed (p : nat) (st : State) : option bool :=
  closed <$> children st !! p.

(** One turn of the event loop at time [now] (what [Date.now()] returns
    during it).  A socket emits ['message'] until it is closed and ['close']
    once; a child emits data until its ['close'], which fires once. *)
Definition step (now : N) (ev : Event) (st : State) : State :=
  match ev with
  | Connection url sp => on_connection now url sp st
  | Message ws message =>
      match sockets st !! ws with
      | Some s =>
          if bool_decide (readyState s = CLOSED) then st
          else if isChatWs s then on_message_chat now ws message st
          else on_message_recognition now ws message st
      | None => st
      end
  | Closing ws =>
      if is_open ws st then with_sockets (alter (set_readyState CLOSING) ws) st
      else st
  | Close ws =>
      match socket_state ws st with
      | Some CLOSED | None => st
      | Some _ => on_ws_close ws st
      end
  | StdoutData p data =>
      match child_closed p st with
      | Some false => on_stdout p data st
      | _ => st
      end
  | StderrData p data =>
      match child_closed p st with
      | Some false => on_stderr p data st
      | _ => st
      end
  | ChildClose p code =>
      match child_closed p st with
      | Some false => on_child_close now p code st
      | _ => st
      end
  | Timeout i sp => on_timeout now i sp st
  end.

(** A run: the events in order, each with the time it is handled at. *)
Definition run (evs : list (N * Event)) (st : State) : State :=
  foldl (fun st e => step (fst e) (snd e) st) st evs.

End Handlers.

(** ** The event without a listener

    Neither [startChatProcess] nor [startRecognitionProcess] attaches an
    ['error'] listener to the child, and the server registers no
    ['uncaughtException'] handler.  When a child emits ['error'], as it
    does after a launch that failed, [emit] throws the error and the
    process ends. *)

(** One thing that happens to the server: an event that a listener
    handles, at the time it is handled, or the ['error'] event of child
    [p]. *)
Inductive Occurrence :=
| Handled (now : N) (ev : Event)
| ChildError (p : nat) (message : jsstring).

Section Serving.
Context `{Platform}.

Definition occur (o : Occurrence) (st : State) : option State :=
  match o with
  | Handled now ev => Some (step now ev st)
  | ChildError p _ =>
      match children st !! p with
      | Some _ => None
      | None => Some st
      end
  end.

(** The server after the occurrences; [None] once the process has ended. *)
Definition serve (os : list Occurrence) (st : State) : option State :=
  foldl (fun acc o =>
           match acc with
           | Some st => occur o st
           | None => None
           end) (Some st) os.

End Serving.

(** ** A reference platform

    An instance of [Platform] to run the handlers on concrete inputs: a
    parser for the JSON grammar (ECMA-404), a printer without white space
    and the string conversion of parsed values.  It is exact on what the
    examples below use (ASCII text, integer literals in canonical form, no
    array-index keys); the error messages are placeholders for the
    engine's.  The theorems hold for every [Platform]. *)

Definition json_ws (c : N) : bool :=
  (c =? 0x20) || (c =? 0x9) || (c =? 0xA) || (c =? 0xD).

Fixpoint skip_ws (s : jsstring) : jsstring :=
  match s with
  | [] => []
  | c :: s' => if json_ws c then skip_ws s' else s
  end.

Definition is_digit (c : N) : bool := between 48 57 c.

Fixpoint take_digits (s : jsstring) : jsstring * jsstring :=
  match s with
  | [] => ([], [])
  | c :: s' =>
      if is_digit c then let '(d, r) := take_digits s' in (c :: d, r)
      else ([], s)
  end.

Definition hex_val (c : N) : option N :=
  if is_digit c then Some (c - 48)
  else if between 97 102 c then Some (c - 87)
  else if between 65 70 c then Some (c - 55)
  else None.

(** The unit a one-letter escape stands for. *)
Definition unescape (c : N) : option N :=
  if (c =? 34) || (c =? 92) || (c =? 47) then Some c
  else if c =? 98 then Some 8
  else if c =? 102 then Some 12
  else if c =? 110 then Some 10
  else if c =? 114 then Some 13
  else if c =? 116 then Some 9
  else None.

Inductive StrState :=
| SPlain
| SEsc
| SHex (more : nat) (val : N).

(** The rest of a string after its opening quote: its value and what
    follows the closing quote. *)
Fixpoint parse_chars (q : StrState) (acc s : jsstring) : option (jsstring * jsstring) :=
  match s with
  | [] => None
  | c :: r =>
      match q with
      | SPlain =>
          if c =? 34 then Some (acc, r)
          else if c =? 92 then parse_chars SEsc acc r
          else if c <? 0x20 then None
          else parse_chars SPlain (acc ++ [c]) r
      | SEsc =>
          match unescape c with
          | Some u => parse_chars SPlain (acc ++ [u]) r
          | None => if c =? 117 then parse_chars (SHex 3 0) acc r else None
          end
      | SHex more val =>
          match hex_val c with
          | Some h =>
              match more with
              | O => parse_chars SPlain (acc ++ [val * 16 + h]) r
              | S more' => parse_chars (SHex more' (val * 16 + h)) acc r
              end
          | None => None
          end
      end
  end.

(** A number literal at the head of [s]: the literal and the rest. *)
Definition parse_number (s : jsstring) : option (jsstring * jsstring) :=
  let '(sign, s1) := match s with
                     | c :: r => if c =? 45 then ([c], r) else ([], s)
                     | [] => ([], s)
                     end in
  let '(int, s2) := take_digits s1 in
  match int with
  | [] => None
  | d :: ds =>
      if (d =? 48) && negb (bool_decide (ds = [])) then None
      else
        let frac :=
          match s2 with
          | c :: r =>
              if c =? 46 then
                match take_digits r with
                | ([], _) => None
                | (f, r') => Some (c :: f, r')
                end
              else Some ([], s2)
          | [] => Some ([], s2)
          end in
        match frac with
        | None => None
        | Some (f, s3) =>
            let exp :=
              match s3 with
              | c :: r =>
                  if (c =? 101) || (c =? 69) then
                    let '(sg, r1) := match r with
                                     | c' :: r' =>
                                         if (c' =? 43) || (c' =? 45) then ([c'], r')
                                         else ([], r)
                                     | [] => ([], r)
                                     end in
                    match take_digits r1 with
                    | ([], _) => None
                    | (e, r2) => Some (c :: sg ++ e, r2)
                    end
                  else Some ([], s3)
              | [] => Some ([], s3)
              end in
            match exp with
            | None => None
            | Some (e, s4) => Some (sign ++ int ++ f ++ e, s4)
            end
        end
  end.

Fixpoint strip_prefix (p s : jsstring) : option jsstring :=
  match p, s with
  | [], _ => Some s
  | a :: p', b :: s' => if a =? b then strip_prefix p' s' else None
  | _ :: _, [] => None
  end.

(** [props[key] = v]: a repeated key keeps its place and takes the later
    value. *)
Fixpoint set_prop (key : jsstring) (v : json) (props : list (jsstring * json)) :
    list (jsstring * json) :=
  match props with
  | [] => [(key, v)]
  | (k, w) :: rest =>
      if bool_decide (k = key) then (k, v) :: rest
      else (k, w) :: set_prop key v rest
  end.

Fixpoint parse_value (fuel : nat) (s : jsstring) : option (json * jsstring) :=
  match fuel with
  | O => None
  | S fuel =>
      match skip_ws s with
      | [] => None
      | c :: r =>
          if c =? 123 then
            match skip_ws r with
            | c' :: r' =>
                if c' =? 125 then Some (JObj [], r')
                else parse_members fuel [] (c' :: r')
            | [] => None
            end
          else if c =? 91 then
            match skip_ws r with
            | c' :: r' =>
                if c' =? 93 then Some (JArr [], r')
                else parse_elements fuel [] (c' :: r')
            | [] => None
            end
          else if c =? 34 then
            match parse_chars SPlain [] r with
            | Some (str, r') => Some (JStr str, r')
            | None => None
            end
          else if (c =? 45) || is_digit c then
            match parse_number (c :: r) with
            | Some (l, r') => Some (JNum l, r')
            | None => None
            end
          else
            match strip_prefix (lit "true") (c :: r) with
            | Some r' => Some (JBool true, r')
            | None =>
                match strip_prefix (lit "false") (c :: r) with
                | Some r' => Some (JBool false, r')
                | None =>
                    match strip_prefix (lit "null") (c :: r) with
                    | Some r' => Some (JNull, r')
                    | None => None
                    end
                end
            end
      end
  end
with parse_elements (fuel : nat) (acc : list json) (s : jsstring) :
    option (json * jsstring) :=
  match fuel with
  | O => None
  | S fuel =>
      match parse_value fuel s with
      | Some (v, r) =>
          match skip_ws r with
          | c :: r' =>
              if c =? 44 then parse_elements fuel (acc ++ [v]) r'
              else if c =? 93 then Some (JArr (acc ++ [v]), r')
              else None
          | [] => None
          end
      | None => None
      end
  end
with parse_members (fuel : nat) (acc : list (jsstring * json)) (s : jsstring) :
    option (json * jsstring) :=
  match fuel with
  | O => None
  | S fuel =>
      match skip_ws s with
      | c :: r =>
          if c =? 34 then
            match parse_chars SPlain [] r with
            | Some (key, r1) =>
                match skip_ws r1 with
                | c1 :: r2 =>
                    if c1 =? 58 then
                      match parse_value fuel r2 with
                      | Some (v, r3) =>
                          match skip_ws r3 with
                          | c3 :: r4 =>
                              if c3 =? 44 then parse_members fuel (set_prop key v acc) r4
                              else if c3 =? 125 then Some (JObj (set_prop key v acc), r4)
                              else None
                          | [] => None
                          end
                      | None => None
                      end
                    else None
                | [] => None
                end
            | None => None
            end
          else None
      | [] => None
      end
  end.

(** [JSON.parse] on the whole text.  The fuel bounds the depth of the
    calls; running out of it reads as a syntax error, which the examples
    below never meet. *)
Definition reference_parse (s : jsstring) : Completion json :=
  match parse_value (2 * length s + 2) s with
  | Some (v, r) =>
      match skip_ws r with
      | [] => Normal v
      | _ :: _ => Throw (lit "Unexpected token in JSON")
      end
  | None => Throw (lit "Unexpected token in JSON")
  end.

Definition hex_digit (n : N) : N := if n <? 10 then 48 + n else 87 + n.

Definition quote_unit (c : N) : jsstring :=
  if (c =? 34) || (c =? 92) then [92; c]
  else if c =? 8 then [92; 98]
  else if c =? 12 then [92; 102]
  else if c =? 10 then [92; 110]
  else if c =? 13 then [92; 114]
  else if c =? 9 then [92; 116]
  else if c <? 0x20 then [92; 117; 48; 48; hex_digit (c / 16); hex_digit (c mod 16)]
  else [c].

Definition quote (s : jsstring) : jsstring :=
  [34] ++ flat_map quote_unit s ++ [34].

Fixpoint join (sep : jsstring) (parts : list jsstring) : jsstring :=
  match parts with
  | [] => []
  | [x] => x
  | x :: rest => x ++ sep ++ join sep rest
  end.

Fixpoint reference_stringify (v : json) : jsstring :=
  match v with
  | JNull => lit "null"
  | JBool b => if b then lit "true" else lit "false"
  | JNum l => l
  | JStr s => quote s
  | JArr items => [91] ++ join [44] (map reference_stringify items) ++ [93]
  | JObj props =>
      [123]
      ++ join [44] (map (fun kv => quote (fst kv) ++ [58] ++ reference_stringify (snd kv)) props)
      ++ [125]
  end.

(** [Array.prototype.join] of converted elements, [null] giving the empty
    string; all of them, or the first throw. *)
Fixpoint join_completions (parts : list (Completion jsstring)) : Completion jsstring :=
  match parts with
  | [] => Normal []
  | Throw m :: _ => Throw m
  | Normal x :: rest =>
      match join_completions rest with
      | Throw m => Throw m
      | Normal y => Normal (match rest with [] => x | _ => x ++ [44] ++ y end)
      end
  end.

Fixpoint reference_ToString (v : json) : Completion jsstring :=
  match v with
  | JNull => Normal (lit "null")
  | JBool b => Normal (if b then lit "true" else lit "false")
  | JNum l => Normal l
  | JStr s => Normal s
  | JArr items =>
      join_completions
        (map (fun x => match x with JNull => Normal [] | _ => reference_ToString x end) items)
  | JObj props =>
      match assoc (lit "toString") props with
      | Some _ => Throw (lit "Cannot convert object to primitive value")
      | None => Normal (lit "[object Object]")
      end
  end.

Definition reference_null_read (key : jsstring) : jsstring :=
  lit "Cannot read properties of null (reading '" ++ key ++ lit "')".

(** ** The registration endpoint: [saveImage] and [POST /api/register] *)

(** [ToBoolean] of a number literal.  [JSON.parse] rounds the literal to
    the nearest double, so it is false exactly when the mantissa is zero or
    the value is at most 2^-1075, half the least positive double. *)
Fixpoint digits_value (acc : N) (s : jsstring) : N :=
  match s with
  | [] => acc
  | c :: r => if is_digit c then digits_value (10 * acc + (c - 48)) r else digits_value acc r
  end.

Fixpoint mantissa (s : jsstring) : jsstring :=
  match s with
  | [] => []
  | c :: r => if (c =? 101) || (c =? 69) then [] else c :: mantissa r
  end.

Fixpoint exponent (s : jsstring) : Z :=
  match s with
  | [] => 0%Z
  | c :: r =>
      if (c =? 101) || (c =? 69) then
        match r with
        | c' :: r' =>
            if c' =? 45 then (- Z.of_N (digits_value 0 r'))%Z
            else Z.of_N (digits_value 0 r)
        | [] => 0%Z
        end
      else exponent r
  end.

Fixpoint fraction (s : jsstring) : jsstring :=
  match s with
  | [] => []
  | c :: r => if c =? 46 then filter (fun d => is_digit d = true) r else fraction r
  end.

Definition rounds_to_zero (literal : jsstring) : bool :=
  let m := digits_value 0 (mantissa literal) in
  let e := (exponent literal - Z.of_nat (length (fraction (mantissa literal))))%Z in
  (m =? 0)
  || ((e <? 0)%Z && (Z.of_N m * 2 ^ 1075 <=? 10 ^ (- e))%Z).

(** [ToBoolean] of what a property read gives: [None] is [undefined]. *)
Definition truthy (v : option json) : bool :=
  match v with
  | None | Some JNull => false
  | Some (JBool b) => b
  | Some (JNum l) => negb (rounds_to_zero l)
  | Some (JStr s) => negb (bool_decide (s = []))
  | Some (JArr _) | Some (JObj _) => true
  end.

(** [base64Image.replace(/^data:image\/jpeg;base64,/, '')] *)
Definition strip_data_uri (base64Image : jsstring) : jsstring :=
  match strip_prefix (lit "data:image/jpeg;base64,") base64Image with
  | Some rest => rest
  | None => base64Image
  end.

(** One call of [res.status(status).json(body)]. *)
Record Response := {
  status : N;
  body : json
}.

(** What one request does to the outside: the responses it sends, the
    [fs.writeFile] calls (path and data), the [exec] calls (command), the
    rows that [db.run] reported as inserted (name, encoding, image path;
    [None] is [undefined]) and the log. *)
Record Effects := {
  responses : list Response;
  writes : list (jsstring * jsstring);
  commands : list jsstring;
  inserts : list (option json * option jsstring * jsstring);
  entries : list (Level * jsstring)
}.

(** What the collaborators of one request do: [path.join] and the uploads
    directory; whether [fs.writeFile] ever calls back, and the error it
    then calls back with; the error [exec] throws when called; whether
    [exec], which is given no timeout, ever calls back, and the error, the
    output and the diagnostics it then calls back with; whether the promise
    of [db.run] is ever settled, and the error it is then rejected with. *)
Record Collaborators := {
  path_join : jsstring -> jsstring -> jsstring;
  uploadsDir : jsstring;
  write_reports : bool;
  write_error : option jsstring;
  exec_throws : option jsstring;
  exec_reports : bool;
  exec_error : option jsstring;
  exec_stdout : jsstring;
  exec_stderr : jsstring;
  db_reports : bool;
  db_error : option jsstring
}.

Definition no_effects : Effects :=
  {| responses := []; writes := []; commands := []; inserts := []; entries := [] |}.

Definition respond (st : N) (b : json) (e : Effects) : Effects :=
  {| responses := responses e ++ [{| status := st; body := b |}]; writes := writes e;
     commands := commands e; inserts := inserts e; entries := entries e |}.

Definition note (lvl : Level) (m : jsstring) (e : Effects) : Effects :=
  {| responses := responses e; writes := writes e; commands := commands e;
     inserts := inserts e; entries := entries e ++ [(lvl, m)] |}.

Definition writeFile (path data : jsstring) (e : Effects) : Effects :=
  {| responses := responses e; writes := writes e ++ [(path, data)];
     commands := commands e; inserts := inserts e; entries := entries e |}.

Definition exec (command : jsstring) (e : Effects) : Effects :=
  {| responses := responses e; writes := writes e; commands := commands e ++ [command];
     inserts := inserts e; entries := entries e |}.

Definition db_insert (row : option json * option jsstring * jsstring) (e : Effects) :
    Effects :=
  {| responses := responses e; writes := writes e; commands := commands e;
     inserts := inserts e ++ [row]; entries := entries e |}.

(** [{ error: text }] *)
Definition error_body (text : string) : json := JObj [(lit "error", JStr (lit text))].

(** [{ message: 'Face registered successfully', name }] *)
Definition created_body (name : option json) : json :=
  JObj ((lit "message", JStr (lit "Face registered successfully"))
        :: match name with
           | Some v => [(lit "name", v)]
           | None => []
           end).

(** The path that a request handled at [now] saves its image to. *)
Definition image_path (now : N) (env : Collaborators) : jsstring :=
  path_join env (uploadsDir env) (lit "face_" ++ decimal now ++ lit ".jpg").

(** The bodies of the failure responses that do not come from the
    encoder. *)
Definition failure_bodies : list json :=
  [error_body "Registration failed"; error_body "Face encoding failed";
   error_body "Failed to save face data"].

Section Register.
Context `{Platform}.

(** The outer [catch] of the route. *)
Definition registration_failed (m : jsstring) (e : Effects) : Effects :=
  respond 500 (error_body "Registration failed")
    (note error (lit "Registration error: " ++ m) e).

(** The [catch (dbError)] of the callback. *)
Definition save_failed (m : jsstring) (e : Effects) : Effects :=
  respond 500 (error_body "Failed to save face data")
    (note error (lit "Database error: " ++ m) e).

(** The callback given to [exec].  It waits for [db.run]; if that is never
    settled, the callback does not go on. *)
Definition encoder_callback (env : Collaborators) (name : option json)
    (name_text imagePath : jsstring)
    (e : Effects) : Effects :=
  match exec_error env with
  | Some m =>
      respond 500 (error_body "Face encoding failed")
        (note error (lit "Python script error: " ++ m) e)
  | None =>
      let e := if bool_decide (exec_stderr env = []) then e
               else note error (lit "Python stderr: " ++ exec_stderr env) e in
      match JSON_parse (exec_stdout env) with
      | Throw m => save_failed m e
      | Normal pythonOutput =>
          match get_prop pythonOutput (lit "error") with
          | Throw m => save_failed m e
          | Normal err =>
              if truthy err then
                match template err with
                | Throw m => save_failed m e
                | Normal text =>
                    respond 400
                      (JObj (match err with
                             | Some v => [(lit "error", v)]
                             | None => []
                             end))
                      (note warn (lit "Face detection error: " ++ text) e)
                end
              else
                match get_prop pythonOutput (lit "encoding") with
                | Throw m => save_failed m e
                | Normal encoding =>
                    let encodingString := JSON_stringify <$> encoding in
                    if db_reports env then
                      match db_error env with
                      | Some m => save_failed m e
                      | None =>
                          respond 201 (created_body name)
                            (note info (lit "Successfully registered face for " ++ name_text)
                               (db_insert (name, encodingString, imagePath) e))
                      end
                    else e
                end
          end
      end
  end.

(** [app.post('/api/register', ...)] on a request with the parsed body
    [req_body], at time [now].  The route waits for [fs.writeFile] and
    answers inside the callback of [exec]: where one of them never calls
    back, what has happened until then is all that happens. *)
Definition register (now : N) (env : Collaborators) (req_body : json) : Effects :=
  match get_prop req_body (lit "name") with
  | Throw m => registration_failed m no_effects
  | Normal name =>
      match get_prop req_body (lit "image") with
      | Throw m => registration_failed m no_effects
      | Normal image =>
          if negb (truthy name) || negb (truthy image) then
            respond 400 (error_body "Name and image are required")
              (note warn (lit "Registration attempt with missing name or image") no_effects)
          else
            let filename := lit "face_" ++ decimal now ++ lit ".jpg" in
            match image with
            | Some (JStr base64Image) =>
                let filePath := path_join env (uploadsDir env) filename in
                let e := writeFile filePath (strip_data_uri base64Image) no_effects in
                if write_reports env then
                  match write_error env with
                  | Some m => registration_failed m e
                  | None =>
                      let e := note info (lit "Saved image to " ++ filePath) e in
                      match template name with
                      | Throw m => registration_failed m e
                      | Normal name_text =>
                          let e := exec (lit "python face_encoder.py " ++ [34] ++ filePath
                                         ++ [34; 32; 34] ++ name_text ++ [34]) e in
                          match exec_throws env with
                          | Some m => registration_failed m e
                          | None =>
                              if exec_reports env
                              then encoder_callback env name name_text filePath e
                              else e
                          end
                      end
                  end
                else e
            | _ =>
                registration_failed (lit "base64Image.replace is not a function") no_effects
            end
      end
  end.

End Register.

(** Collaborators that all succeed: the image is written, the encoder
    prints an encoding and nothing else, the row is inserted. *)
Definition all_succeed : Collaborators :=
  {| path_join := fun dir file => dir ++ lit "/" ++ file;
     uploadsDir := lit "uploads";
     write_reports := true;
     write_error := None;
     exec_throws := None;
     exec_reports := true;
     exec_error := None;
     exec_stdout := jlit "{'encoding':[0.25,-0.5]}";
     exec_stderr := [];
     db_reports := true;
     db_error := None |}.

(** The same, but the encoder never exits. *)
Definition encoder_hangs : Collaborators :=
  {| path_join := path_join all_succeed;
     uploadsDir := uploadsDir all_succeed;
     write_reports := true;
     write_error := None;
     exec_throws := None;
     exec_reports := false;
     exec_error := None;
     exec_stdout := [];
     exec_stderr := [];
     db_reports := true;
     db_error := None |}.

(** ** The client: [registerFace], the frame loop, [handleFpsChange] *)


(** The refs of the recognition tab that steer the frame loop:
    [processingRef.current], the [readyState] of [wsRef.current] ([None]
    while it is [null]) and the arguments of its [send], in order. *)
Record Tab := {
  processing : bool;
  connection : option ReadyState;
  frames : list jsstring
}.

Inductive TabEvent :=
| Tick (ready : bool) (imageData : jsstring)
| ServerMessage (data : jsstring)
| ConnectWebSocket
| SocketOpened
| SocketClosed.

Section FrameLoop.
Context `{Platform}.

(** [captureAndSendFrame]; [ready] says that video and canvas are there
    and the video is neither paused nor ended, [imageData] is what
    [canvas.toDataURL] returns. *)
Definition captureAndSendFrame (ready : bool) (imageData : jsstring) (t : Tab) : Tab :=
  if processing t then t
  else
    match connection t with
    | Some OPEN =>
        if ready then
          {| processing := true; connection := connection t;
             frames := frames t
                       ++ [JSON_stringify
                             (JObj [(lit "type", JStr (lit "frame"));
                                    (lit "image", JStr imageData)])] |}
        else t
    | _ => t
    end.

(** One event of the tab.  [onmessage] ends with
    [processingRef.current = false] whatever the message was; what it does
    to the display is not part of this state. *)
Definition tab_step (ev : TabEvent) (t : Tab) : Tab :=
  match ev with
  | Tick ready imageData => captureAndSendFrame ready imageData t
  | ServerMessage _ =>
      {| processing := false; connection := connection t; frames := frames t |}
  | ConnectWebSocket =>
      {| processing := processing t; connection := Some CONNECTING; frames := frames t |}
  | SocketOpened =>
      {| processing := processing t;
         connection := match connection t with
                       | Some CONNECTING => Some OPEN
                       | other => other
                       end;
         frames := frames t |}
  | SocketClosed =>
      {| processing := processing t;
         connection := match connection t with
                       | Some _ => Some CLOSED
                       | None => None
                       end;
         frames := frames t |}
  end.

Definition tab_run (evs : list TabEvent) (t : Tab) : Tab :=
  foldl (fun t e => tab_step e t) t evs.

End FrameLoop.

Definition mounted : Tab := {| processing := false; connection := None; frames := [] |}.

Definition is_message (ev : TabEvent) : bool :=
  match ev with
  | ServerMessage _ => true
  | _ => false
  end.

(** A Number that [parseInt] can return: [NaN], an infinity, or an integer
    with its sign (zero has one too). *)
Inductive Number :=
| NaN
| Infinity (negative : bool)
| Finite (negative : bool) (magnitude : N).

(** The double nearest to a natural number, ties to even: up to 53 bits
    it is the number itself, beyond that the bits below the 53rd are
    rounded away; [None] from 2^1024 on, where the result is infinite. *)
Definition nearest_double (n : N) : option N :=
  let bits := N.size n in
  if bits <=? 53 then Some n
  else
    let k := bits - 53 in
    let q := N.shiftr n k in
    let r := N.land n (N.ones k) in
    let half := 2 ^ (k - 1) in
    let q := if (half <? r) || ((r =? half) && N.odd q) then q + 1 else q in
    let m := N.shiftl q k in
    if 2 ^ 1024 <=? m then None else Some m.

Definition to_number (negative : bool) (n : N) : Number :=
  match nearest_double n with
  | Some m => Finite negative m
  | None => Infinity negative
  end.

(** [parseInt(value)] with no radix, on a string: white space is skipped,
    then a sign, then [0x] selects base 16; the digits that follow are
    read up to the first unit that is none, and the integer read is
    rounded to a Number.  Past 20 significant decimal digits an engine
    may replace the further digits by zeros before rounding; here it does
    not. *)
Definition digit_in (radix : N) (c : N) : option N :=
  let v := if is_digit c then Some (c - 48)
           else if between 97 122 c then Some (c - 87)
           else if between 65 90 c then Some (c - 55)
           else None in
  match v with
  | Some d => if d <? radix then Some d else None
  | None => None
  end.

Fixpoint read_digits (radix : N) (acc : option N) (s : jsstring) : option N :=
  match s with
  | [] => acc
  | c :: r =>
      match digit_in radix c with
      | Some d => read_digits radix (Some (radix * default 0 acc + d)) r
      | None => acc
      end
  end.

Definition parseInt (value : jsstring) : Number :=
  let s := trimStart value in
  let '(negative, s) :=
    match s with
    | c :: r => if c =? 45 then (true, r) else if c =? 43 then (false, r) else (false, s)
    | [] => (false, s)
    end in
  let '(radix, s) :=
    match s with
    | c0 :: c1 :: r =>
        if (c0 =? 48) && ((c1 =? 120) || (c1 =? 88)) then (16, r) else (10, s)
    | _ => (10, s)
    end in
  match read_digits radix None s with
  | Some n => to_number negative n
  | None => NaN
  end.

(** The delay [1000 / fps] given to [setInterval]: not a number, infinite,
    zero, or the quotient of 1000 by a non-zero integer. *)
Inductive Delay :=
| NotANumber
| Unbounded (negative : bool)
| Zero (negative : bool)
| Quotient (negative : bool) (divisor : N).

Definition delay (fps : Number) : Delay :=
  match fps with
  | NaN => NotANumber
  | Infinity negative => Zero negative
  | Finite negative n => if n =? 0 then Unbounded negative else Quotient negative n
  end.

(** [handleFpsChange] on the value of the chosen option: the rate given to
    [setFps] and, while streaming, the delay of the interval it sets.  The
    selector is disabled while streaming; the rate set is the [fps] that
    the next [startStream] divides 1000 by. *)
Definition handleFpsChange (isStreaming : bool) (value : jsstring) :
    Number * option Delay :=
  let newFps := parseInt value in
  (newFps, if isStreaming then Some (delay newFps) else None).

(** ** Notions used in the statements *)

(** [s] has no unit [sep]: a line, for [sep] the newline. *)
Definition sep_free (sep : N) (s : jsstring) : Prop := Forall (fun c => c <> sep) s.

(** What the framer has handed over, and what it holds, after some text. *)
Definition complete (buffer text : jsstring) : list jsstring :=
  removelast (split_go 10 buffer text).

Definition pending (buffer text : jsstring) : jsstring :=
  default [] (last (split_go 10 buffer text)).

(** Bytes below 80 only: each is a character of its own. *)
Definition ascii_only (bs : Buffer) : Prop := Forall (fun b => Byte.to_N b <= 0x7F) bs.

Section Notions.
Context `{Platform}.

(** The socket that the ['connection'] listener starts from. *)
Definition accepted (now : N) (url : jsstring) : WebSocket :=
  {| clientId := decimal now; isChatWs := classify url; readyState := OPEN;
     recognitionProcess := None; chatProcess := None; sent := [] |}.

Definition connection_message (now : N) (url : jsstring) : jsstring :=
  lit "New WebSocket connection established: "
  ++ (if classify url then lit "Chat" else lit "Recognition")
  ++ lit " (Client " ++ decimal now ++ lit ")".

(** The text sent when [spawn] throws. *)
Definition unavailable (chat : bool) : json :=
  if chat then system_message "Unable to start chat service. Please try again later."
  else system_message "Failed to start recognition service. Please try again.".

(** The [type] that a connection of each kind relays, the property it
    copies, and the variable that holds its worker. *)
Definition expected_type (chat : bool) : string := if chat then "query" else "frame".
Definition payload_key (chat : bool) : string := if chat then "query" else "image".
Definition worker_of (s : WebSocket) : option nat :=
  if isChatWs s then chatProcess s else recognitionProcess s.

(** How a connection of each kind treats a client message: it relays the
    payload that the message has ([None] when it has none), it rejects the
    message with the error thrown inside the [try], or it ignores it. *)
Inductive Shape :=
| Relayed (payload : option json)
| Rejected (message : jsstring)
| Ignored.

(** A message is relayed when it is a JSON object of the type of the kind
    and, on a chat connection, its payload can be put into the log line;
    it is rejected when it is not JSON, when it is [null], and on a chat
    connection when its payload has no string conversion. *)
Definition shape (chat : bool) (message : Buffer) : Shape :=
  match JSON_parse (toString message) with
  | Throw m => Rejected m
  | Normal JNull => Rejected (null_read_message (lit "type"))
  | Normal (JObj props) =>
      if is_string (expected_type chat) (assoc (lit "type") props) then
        let payload := assoc (lit (payload_key chat)) props in
        if chat then
          match template payload with
          | Normal _ => Relayed payload
          | Throw m => Rejected m
          end
        else Relayed payload
      else Ignored
  | Normal _ => Ignored
  end.

(** What is written to the worker for a message received at [now]: for a
    relayed one, the JSON object of its payload and the time, then a
    newline. *)
Definition relay_line (chat : bool) (now : N) (message : Buffer) : option jsstring :=
  match shape chat message with
  | Relayed payload =>
      Some (JSON_stringify (with_timestamp (payload_key chat) payload now) ++ [10])
  | _ => None
  end.

(** What is logged for a message: the query of a relayed chat message, the
    error of a rejected one. *)
Definition relay_log (chat : bool) (message : Buffer) : list (Level * jsstring) :=
  match shape chat message with
  | Relayed payload =>
      if chat then
        match template payload with
        | Normal text => [(info, lit "Received chat query: " ++ text)]
        | Throw _ => []
        end
      else []
  | Rejected m =>
      [(error, (if chat then lit "WebSocket chat message error: "
                else lit "WebSocket recognition message error: ") ++ m)]
  | Ignored => []
  end.

(** What the client is sent back for a message: a chat connection that is
    open answers a rejected message with a fixed notice. *)
Definition relay_reply (chat : bool) (r : ReadyState) (message : Buffer) : list jsstring :=
  match shape chat message with
  | Rejected _ =>
      if chat && bool_decide (r = OPEN)
      then [JSON_stringify (system_message "Invalid message format. Please try again.")]
      else []
  | _ => []
  end.

(** [stdin.write] called with each line in turn, [ws.send] with each
    message in turn. *)
Definition write_all (lines : list jsstring) (c : ChildProcess) : ChildProcess :=
  foldl (fun c l => push_stdin l c) c lines.

Definition send_all (ms : list jsstring) (s : WebSocket) : WebSocket :=
  foldl (fun s m => push_sent m s) s ms.

(** The messages, each with the time it arrives at, as events of
    connection [ws]. *)
Definition arrivals (ws : nat) (msgs : list (N * Buffer)) : list (N * Event) :=
  map (fun x => (fst x, Message ws (snd x))) msgs.

(** What a run of messages writes, logs and sends back, in order. *)
Definition relay_lines (chat : bool) (msgs : list (N * Buffer)) : list jsstring :=
  omap (fun x => relay_line chat (fst x) (snd x)) msgs.

Definition relay_logs (chat : bool) (msgs : list (N * Buffer)) : list (Level * jsstring) :=
  concat (map (fun x => relay_log chat (snd x)) msgs).

Definition relay_replies (chat : bool) (r : ReadyState) (msgs : list (N * Buffer)) :
    list jsstring :=
  concat (map (fun x => relay_reply chat r (snd x)) msgs).

(** The registry a connection of each kind uses. *)
Definition registry_of (chat : bool) (st : State) : gmap jsstring nat :=
  if chat then chatProcesses st else recognitionProcesses st.

(** All sockets are closed. *)
Definition all_closed (st : State) : bool :=
  forallb (fun s => bool_decide (readyState s = CLOSED)) (sockets st).

(** The line of the concrete scenario of the specification. *)
Definition result_line : string :=
  "{'type':'recognition_result','faces':[{'left':10,'top':10,'right':50,'bottom':60,'name':'Alice','confidence':0.92}]}".

Definition result_value : json :=
  Eval vm_compute in
    match reference_parse (jlit result_line) with
    | Normal v => v
    | Throw _ => JNull
    end.

(** A recognition client accepted at time 1000, its worker spawned. *)
Definition recognition_session : State :=
  run [(1000, Connection (lit "/ws") Spawned)] initial.

(** A chat client accepted at time 1000, its worker spawned. *)
Definition chat_session : State :=
  run [(1000, Connection (lit "/chat") Spawned)] initial.

End Notions.

(** ** Notions for the invariants of the supervisor *)

Section InvariantNotions.
Context `{Platform}.

(** The five fixed notices that the server sends on its own account. *)
Definition notices : list json :=
  [system_message "Chat service encountered an issue. Please try again.";
   system_message "Chat process terminated, restarting...";
   system_message "Unable to start chat service. Please try again later.";
   system_message "Invalid message format. Please try again.";
   system_message "Failed to start recognition service. Please try again."].

Definition is_notice (m : jsstring) : Prop :=
  exists v, v ∈ notices /\ m = JSON_stringify v.

(** [JSON.stringify] of the value that [JSON.parse] returned for one of
    the [lines]. *)
Definition relays (lines : list jsstring) (m : jsstring) : Prop :=
  exists line v, line ∈ lines /\ JSON_parse line = Normal v /\ m = JSON_stringify v.

(** The event [ev], handled in state [st], is output of a running worker
    that was spawned for socket [ws], and [m] relays one of the lines that
    the framer cuts from it. *)
Definition from_output (ws : nat) (ev : Event) (st : State) (m : jsstring) : Prop :=
  exists p data c,
    ev = StdoutData p data /\ children st !! p = Some c
    /\ socket c = ws /\ closed c = false
    /\ relays (fst (framer (buffer c) data)) m.

(** In the run [evs] from the start of the server, [m] relays a line of
    output of a worker of socket [ws]. *)
Definition from_worker (ws : nat) (evs : list (N * Event)) (m : jsstring) : Prop :=
  exists evs1 now ev evs2,
    evs = evs1 ++ (now, ev) :: evs2 /\ from_output ws ev (run evs1 initial) m.

(** What a listener may do to a socket: set [readyState], call [send]. *)
Definition upd (r : option ReadyState) (new : list jsstring) (s : WebSocket) : WebSocket :=
  {| clientId := clientId s; isChatWs := isChatWs s;
     readyState := default (readyState s) r;
     recognitionProcess := recognitionProcess s; chatProcess := chatProcess s;
     sent := sent s ++ new |}.

(** What a listener may do to a child: replace its [buffer], write to its
    input, kill it, see it close. *)
Definition cupd (b : option jsstring) (ins : list jsstring) (k cl : bool)
    (c : ChildProcess) : ChildProcess :=
  {| script := script c; owner := owner c; socket := socket c;
     buffer := default (buffer c) b; stdin := stdin c ++ ins;
     killed := killed c || k; closed := closed c || cl |}.

(** The socket that a ['connection'] event at [now] adds to state [st]. *)
Definition fresh_socket (now : N) (url : jsstring) (sp : SpawnOutcome) (st : State)
    (s : WebSocket) : Prop :=
  clientId s = decimal now /\ isChatWs s = classify url /\ readyState s = OPEN
  /\ Forall is_notice (sent s)
  /\ recognitionProcess s
     = match sp with
       | Spawned => if classify url then None else Some (length (children st))
       | SpawnThrows _ => None
       end
  /\ chatProcess s
     = match sp with
       | Spawned => if classify url then Some (length (children st)) else None
       | SpawnThrows _ => None
       end.

(** The states the server can be in: those a run reaches from the start. *)
Definition reachable (st : State) : Prop := exists evs, st = run evs initial.

(** Every entry of a registry holds a child of the registry's kind that
    was spawned under the entry's key and has not closed. *)
Definition registry_sound (k : Kind) (reg : gmap jsstring nat) (st : State) : Prop :=
  forall id p, reg !! id = Some p ->
    exists c, children st !! p = Some c
              /\ script c = k /\ owner c = id /\ closed c = false.

(** The variable of a connection holds a worker that was spawned for that
    connection, of its kind and under its id. *)
Definition variables_sound (st : State) : Prop :=
  forall ws s p, sockets st !! ws = Some s ->
    recognitionProcess s = Some p \/ chatProcess s = Some p ->
    exists c, children st !! p = Some c
              /\ socket c = ws /\ owner c = clientId s
              /\ script c = kind_of (isChatWs s) /\ worker_of s = Some p.

(** The child that a step adds, if it adds one. *)
Definition spawned_child (now : N) (ev : Event) (st : State) : list ChildProcess :=
  match ev with
  | Connection url Spawned =>
      [new_child (kind_of (classify url)) (decimal now) (length (sockets st))]
  | Timeout i Spawned =>
      match timers st !! i with
      | Some t =>
          if due t <=? now then [new_child Chat (timer_clientId t) (timer_ws t)] else []
      | None => []
      end
  | _ => []
  end.

(** The registry of workers of kind [k]. *)
Definition reg (k : Kind) (st : State) : gmap jsstring nat :=
  match k with
  | Chat => chatProcesses st
  | Recognition => recognitionProcesses st
  end.

(** No socket's variable holds child [n], and nothing has been written to
    its input. *)
Definition unheld (n : nat) (st : State) : Prop :=
  (forall ws s, sockets st !! ws = Some s ->
     recognitionProcess s <> Some n /\ chatProcess s <> Some n)
  /\ stdin <$> children st !! n = Some [].

(** A chat session whose worker has exited and been restarted, and whose
    client then asks a question. *)
Definition restarted_session : State :=
  run [(1000, Connection (lit "/chat") Spawned);
       (1500, ChildClose 0 (Some 1));
       (2500, Timeout 0 Spawned);
       (3000, Message 0 (jbytes "{'type':'query','query':'hello'}"))] initial.

End InvariantNotions.

(** * Properties *)

(** ** The framer on text *)

Section Split.
Variable sep : N.

Lemma split_go_nonempty cur s : split_go sep cur s <> [].
Proof.
  revert cur. induction s as [|c s IH]; intros cur; simpl; [done|].
  destruct (c =? sep); [done | apply IH].
Qed.

Lemma split_go_free cur s : sep_free sep s -> split_go sep cur s = [cur ++ s].
Proof.
  revert cur. induction s as [|c s IH]; intros cur Hs; simpl.
  - by rewrite app_nil_r.
  - inversion Hs as [|? ? Hc Hs']; subst.
    destruct (N.eqb_spec c sep) as [->|_]; [done|].
    rewrite IH by done. by rewrite <- app_assoc.
Qed.

(** Splitting a concatenation: the complete segments of the first part,
    then the split of the rest continued from the open segment. *)
Lemma split_go_app cur a b :
  split_go sep cur (a ++ b)
  = removelast (split_go sep cur a)
    ++ split_go sep (default [] (last (split_go sep cur a))) b.
Proof.
  revert cur. induction a as [|c a IH]; intros cur; simpl; [done|].
  destruct (c =? sep); [|apply IH].
  rewrite IH.
  destruct (split_go sep [] a) as [|x l] eqn:E.
  - by destruct (split_go_nonempty [] a).
  - by rewrite last_cons_cons.
Qed.

Lemma split_go_last_free cur s :
  sep_free sep cur -> sep_free sep (default [] (last (split_go sep cur s))).
Proof.
  revert cur. induction s as [|c s IH]; intros cur Hcur; simpl; [done|].
  destruct (N.eqb_spec c sep) as [->|Hc].
  - specialize (IH [] (Forall_nil_2 _)).
    destruct (split_go sep [] s) as [|x l] eqn:E.
    + by destruct (split_go_nonempty [] s).
    + by rewrite last_cons_cons.
  - apply IH. apply Forall_app; split; [done|]. by constructor.
Qed.

(** An open segment without separator may as well be put back in front. *)
Lemma split_go_prefix cur s :
  sep_free sep cur -> split_go sep [] (cur ++ s) = split_go sep cur s.
Proof.
  intros Hcur. rewrite split_go_app, (split_go_free [] cur) by done. done.
Qed.

(** Terminated, separator-free messages split into themselves. *)
Lemma split_go_messages M rest :
  Forall (sep_free sep) M ->
  split_go sep [] (concat (map (fun m => m ++ [sep]) M) ++ rest)
  = M ++ split_go sep [] rest.
Proof.
  induction 1 as [|m M Hm HM IH]; simpl; [done|].
  rewrite <- !app_assoc. rewrite split_go_app, split_go_free by done.
  simpl. rewrite N.eqb_refl. by rewrite IH.
Qed.

End Split.

Lemma sep_free_check sep s :
  forallb (fun c => negb (c =? sep)) s = true -> sep_free sep s.
Proof.
  induction s as [|c s IH]; simpl; [constructor|].
  intros [Hc Hs]%andb_true_iff. constructor; [|by apply IH].
  by apply N.eqb_neq, negb_true_iff.
Qed.

Lemma framer_split buffer data :
  sep_free 10 buffer ->
  framer buffer data = (complete buffer (toString data), pending buffer (toString data)).
Proof.
  intros Hb. unfold framer, pop, complete, pending, js_split.
  by rewrite split_go_prefix.
Qed.

Lemma framer_run_split chunks : forall buffer,
  sep_free 10 buffer ->
  framer_run buffer chunks
  = (complete buffer (concat (map toString chunks)),
     pending buffer (concat (map toString chunks))).
Proof.
  induction chunks as [|d ds IH]; intros b Hb; cbn [framer_run concat map].
  - done.
  - rewrite framer_split by done.
    rewrite IH by (by apply split_go_last_free).
    unfold complete, pending. rewrite (split_go_app 10 b (toString d)).
    set (h := split_go 10 b (toString d)).
    set (t := split_go 10 (default [] (last h)) (concat (map toString ds))).
    assert (Ht : t <> []) by apply split_go_nonempty.
    f_equal.
    + rewrite removelast_app by done. done.
    + destruct t as [|x t'] using rev_ind; [done|].
      by rewrite app_assoc, !last_snoc.
Qed.

(** Text-level chunk invariance of the framer: if the chunks decode, one by
    one, to pieces of the text of the newline-terminated, newline-free
    messages [M], then the lines handed to [forEach] are exactly [M], in
    order, and the buffer is empty at the end. *)
Theorem framer_text_chunk_invariance (M : list jsstring) (chunks : list Buffer) :
  Forall (sep_free 10) M ->
  concat (map toString chunks) = concat (map (fun m => m ++ [10]) M) ->
  framer_run [] chunks = (M, []).
Proof.
  intros HM HT. rewrite framer_run_split by constructor.
  unfold complete, pending. rewrite HT.
  rewrite <- (app_nil_r (concat _)), split_go_messages by done.
  simpl. by rewrite removelast_last, last_snoc.
Qed.

Lemma framer_text_chunk_invariance_witness :
  framer_run [] [[Byte.x61; Byte.x0a; Byte.x62]; [Byte.x63]; [Byte.x0a]]
  = ([lit "a"; lit "bc"], []).
Proof.
  apply (framer_text_chunk_invariance [lit "a"; lit "bc"]).
  - repeat constructor; vm_compute; discriminate.
  - reflexivity.
Defined.

(** *** Byte chunks of ASCII output *)

Lemma toString_ascii bs : ascii_only bs -> toString bs = map Byte.to_N bs.
Proof.
  unfold toString. induction 1 as [|b bs Hb Hbs IH]; [done|].
  cbn [map utf8_decode]. unfold utf8_first.
  apply N.leb_le in Hb. rewrite Hb. cbn [app]. by rewrite IH.
Qed.

Lemma concat_toString_ascii chunks :
  ascii_only (concat chunks) ->
  concat (map toString chunks) = map Byte.to_N (concat chunks).
Proof.
  induction chunks as [|d ds IH]; [done|]. cbn [concat map].
  intros [Hd Hds]%Forall_app. by rewrite map_app, toString_ascii, IH.
Qed.

(** Byte-level chunk invariance for ASCII output: if the worker writes the
    newline-terminated messages [M], all of bytes below 80 and none of
    them a newline, then however the byte stream is cut into chunks, the
    lines handed to [forEach] are exactly the messages, in order, and the
    buffer is empty at the end. *)
Theorem framer_ascii_chunk_invariance (M : list Buffer) (chunks : list Buffer) :
  Forall ascii_only M ->
  Forall (fun m => Byte.x0a ∉ m) M ->
  concat chunks = concat (map (fun m => m ++ [Byte.x0a]) M) ->
  framer_run [] chunks = (map (map Byte.to_N) M, []).
Proof.
  intros HA HN HC. apply framer_text_chunk_invariance.
  - apply Forall_fmap. eapply Forall_impl; [exact HN|].
    intros m Hm. apply Forall_fmap, Forall_forall. intros b Hb Heq. cbn in Heq.
    apply Hm. assert (b = Byte.x0a) as <-; [|done].
    apply (f_equal Byte.of_N) in Heq. rewrite Byte.of_to_N in Heq. cbn in Heq.
    congruence.
  - rewrite concat_toString_ascii, HC.
    + clear. induction M as [|m M IH]; [done|].
      cbn [map concat]. by rewrite !map_app, IH.
    + rewrite HC. clear -HA. induction HA as [|m M Hm HM IH]; [constructor|].
      cbn [map concat]. rewrite <- app_assoc. apply Forall_app. split; [done|].
      apply Forall_cons. split; [|done]. cbn. lia.
Qed.

Lemma framer_ascii_chunk_invariance_witness :
  framer_run [] [jbytes "{'a':"; jbytes "1}" ++ [Byte.x0a] ++ jbytes "{'b':2}"; [Byte.x0a]]
  = (map (map Byte.to_N) [jbytes "{'a':1}"; jbytes "{'b':2}"], []).
Proof.
  apply (framer_ascii_chunk_invariance [jbytes "{'a':1}"; jbytes "{'b':2}"]).
  - repeat constructor; vm_compute; discriminate.
  - repeat constructor; vm_compute; intros Hin;
      repeat (apply elem_of_cons in Hin as [Hin|Hin]; [discriminate Hin|]);
      by apply elem_of_nil in Hin.
  - reflexivity.
Defined.

(** C2 (chunk invariance over byte chunks), evaluated where it fails: the
    line ["é"] arrives as the bytes 22 C3 A9 22 0A.  In one chunk the
    framer hands over that line; cut inside the two-byte character, each
    chunk is decoded on its own, both halves become U+FFFD, and the line
    handed over is a different one. *)
Theorem framer_splits_character :
  let whole := [Byte.x22; Byte.xc3; Byte.xa9; Byte.x22; Byte.x0a] in
  let c1 := [Byte.x22; Byte.xc3] in
  let c2 := [Byte.xa9; Byte.x22; Byte.x0a] in
  c1 ++ c2 = whole
  /\ framer_run [] [whole] = ([[34; 233; 34]], [])
  /\ framer_run [] [c1; c2] = ([[34; 0xFFFD; 0xFFFD; 34]], []).
Proof. vm_compute. repeat split. Qed.

(** ** [trim] and the empty-line filter *)

Lemma trimStart_nil s : trimStart s = [] <-> forallb is_ws s = true.
Proof.
  induction s as [|c s IH]; simpl; [done|].
  destruct (is_ws c); simpl; [done|]. split; discriminate.
Qed.

Lemma trimStart_ws s : forallb is_ws (trimStart s) = true -> trimStart s = [].
Proof.
  induction s as [|c s IH]; simpl; [done|].
  destruct (is_ws c) eqn:E; [done|]. simpl. by rewrite E.
Qed.

Lemma forallb_rev {A} (f : A -> bool) l : forallb f (rev l) = forallb f l.
Proof.
  induction l as [|x l IH]; simpl; [done|].
  rewrite forallb_app, IH. simpl. rewrite andb_true_r. apply andb_comm.
Qed.

(** [line.trim() === ''] holds exactly of the lines made of white space. *)
Lemma blank_ws s : blank s = true <-> forallb is_ws s = true.
Proof.
  unfold blank, trim. split.
  - intros Hb. apply trimStart_nil, trimStart_ws. rewrite <- forallb_rev.
    apply trimStart_nil.
    destruct (rev (trimStart (rev (trimStart s)))) as [|x l] eqn:E; [|done].
    apply (f_equal (@rev N)) in E. by rewrite rev_involutive in E.
  - intros Hs. apply trimStart_nil in Hs. by rewrite Hs.
Qed.

Section Relay.
Context `{Platform}.

(** C10: a line of the worker's output that consists of white space only
    (so that [line.trim()] is empty) is skipped by both framers: the state
    is left as it was, with nothing sent and nothing logged. *)
Theorem whitespace_line_skipped (k : Kind) (ws : nat) (st : State) (line : jsstring) :
  forallb is_ws line = true ->
  line_handler k ws st line = st.
Proof.
  intros Hl. apply blank_ws in Hl.
  destruct k; simpl; unfold recognition_line, chat_line; by rewrite Hl.
Qed.

End Relay.

(** ** The reference platform satisfies the interface *)

Lemma skip_ws_blank s :
  forallb is_ws s = true ->
  skip_ws s = [] \/ exists c r, skip_ws s = c :: r /\ is_ws c = true /\ json_ws c = false.
Proof.
  induction s as [|c s IH]; simpl; [by left|].
  intros [Hc Hs]%andb_true_iff.
  destruct (json_ws c) eqn:E; [by apply IH|].
  right. by exists c, s.
Qed.

Lemma ws_starts_no_value c :
  is_ws c = true -> json_ws c = false ->
  (c =? 123) = false /\ (c =? 91) = false /\ (c =? 34) = false
  /\ ((c =? 45) || is_digit c) = false
  /\ (116 =? c) = false /\ (102 =? c) = false /\ (110 =? c) = false.
Proof.
  unfold is_ws, json_ws, is_digit, between. intros Hw Hj.
  repeat rewrite orb_true_iff in Hw. repeat rewrite orb_false_iff in Hj.
  rewrite andb_true_iff, !N.eqb_eq, !N.leb_le in Hw.
  rewrite !N.eqb_neq in Hj.
  repeat rewrite orb_false_iff. rewrite andb_false_iff, !N.eqb_neq, !N.leb_gt.
  lia.
Qed.

Lemma strip_prefix_head p c r :
  match p with a :: _ => (a =? c) = false | [] => False end ->
  strip_prefix p (c :: r) = None.
Proof. destruct p as [|a p]; [done|]. simpl. by intros ->. Qed.

Lemma parse_value_blank fuel s : forallb is_ws s = true -> parse_value fuel s = None.
Proof.
  intros Hs. destruct fuel as [|fuel]; [done|].
  destruct (skip_ws_blank s Hs) as [E|(c & r & E & Hw & Hj)];
    cbn [parse_value]; rewrite E; [done|].
  destruct (ws_starts_no_value c Hw Hj) as (-> & -> & -> & -> & H1 & H2 & H3).
  by rewrite !strip_prefix_head.
Qed.

Lemma reference_parse_blank s :
  blank s = true -> exists m, reference_parse s = Throw m.
Proof.
  intros Hs%blank_ws. unfold reference_parse.
  rewrite parse_value_blank by done. by eexists.
Qed.

#[export] Instance reference_platform : Platform := {|
  JSON_parse := reference_parse;
  JSON_stringify := reference_stringify;
  ToString := reference_ToString;
  null_read_message := reference_null_read;
  JSON_parse_blank := reference_parse_blank;
  ToString_string := fun s => eq_refl
|}.

Lemma whitespace_line_skipped_witness :
  line_handler Chat 0 chat_session [0x20; 0x9; 0xD; 0xA0; 0x3000] = chat_session.
Proof.
  apply (whitespace_line_skipped Chat 0 chat_session [0x20; 0x9; 0xD; 0xA0; 0x3000]).
  reflexivity.
Defined.

(** ** Worker output: from chunks to the client *)

Section Outbound.
Context `{Platform}.

Lemma State_eta st :
  st = {| recognitionProcesses := recognitionProcesses st;
          chatProcesses := chatProcesses st; sockets := sockets st;
          children := children st; timers := timers st; log := log st |}.
Proof. by destruct st. Qed.

Lemma with_children_same p c f st :
  children st !! p = Some c -> f c = c -> with_children (alter f p) st = st.
Proof.
  intros Hp Hf. rewrite (State_eta st) at 2. unfold with_children. f_equal.
  rewrite <- (list_alter_id id (children st) p) at 2 by done.
  apply list_alter_ext; [|done]. intros x Hx. by simplify_eq.
Qed.

(** The line handlers read and write the sockets and the log only. *)
Lemma line_handler_with_children k ws f st line :
  line_handler k ws (with_children f st) line
  = with_children f (line_handler k ws st line).
Proof.
  destruct k; simpl; unfold recognition_line, chat_line, send_if_open;
    destruct (blank line); try done;
    destruct (JSON_parse line); try done;
    change (is_open ws (with_children f st)) with (is_open ws st);
    try change (is_open ws (logger ?l ?m (with_children f st))) with (is_open ws st);
    try change (is_open ws (logger ?l ?m st)) with (is_open ws st);
    by destruct (is_open ws st).
Qed.

Lemma foldl_line_handler_with_children k ws f lines : forall st,
  foldl (line_handler k ws) (with_children f st) lines
  = with_children f (foldl (line_handler k ws) st lines).
Proof.
  induction lines as [|l ls IH]; intros st; simpl; [done|].
  by rewrite line_handler_with_children, IH.
Qed.

Lemma line_handler_children k ws st line :
  children (line_handler k ws st line) = children st.
Proof.
  destruct k; simpl; unfold recognition_line, chat_line, send_if_open;
    destruct (blank line); try done;
    destruct (JSON_parse line); try done;
    repeat match goal with |- context [if ?b then _ else _] => destruct b end; done.
Qed.

Lemma foldl_line_handler_children k ws lines : forall st,
  children (foldl (line_handler k ws) st lines) = children st.
Proof.
  induction lines as [|l ls IH]; intros st; simpl; [done|].
  by rewrite IH, line_handler_children.
Qed.

Lemma run_cons t e evs st : run ((t, e) :: evs) st = run evs (step t e st).
Proof. done. Qed.

Lemma framer_run_cons b d ds :
  framer_run b (d :: ds)
  = (fst (framer b d) ++ fst (framer_run (snd (framer b d)) ds),
     snd (framer_run (snd (framer b d)) ds)).
Proof.
  cbn [framer_run]. destruct (framer b d) as [lines tail]. cbn [fst snd].
  by destruct (framer_run tail ds).
Qed.

Lemma stdout_step now p data st c :
  children st !! p = Some c -> closed c = false ->
  step now (StdoutData p data) st
  = foldl (line_handler (script c) (socket c))
      (with_children (alter (set_buffer (snd (framer (buffer c) data))) p) st)
      (fst (framer (buffer c) data)).
Proof.
  intros Hp Hc. cbn [step]. unfold child_closed, on_stdout. rewrite Hp.
  cbn [fmap option_fmap option_map]. rewrite Hc.
  by destruct (framer (buffer c) data).
Qed.

(** The stdout listener of child [p] called on each chunk in turn: the
    lines of [framer_run] go through the line handler in order, and the
    buffer of [p] is the one [framer_run] ends with. *)
Lemma stdout_run p (chunks : list (N * Buffer)) : forall st c,
  children st !! p = Some c -> closed c = false ->
  run (map (fun td => (fst td, StdoutData p (snd td))) chunks) st
  = with_children (alter (set_buffer (snd (framer_run (buffer c) (map snd chunks)))) p)
      (foldl (line_handler (script c) (socket c)) st
         (fst (framer_run (buffer c) (map snd chunks)))).
Proof.
  induction chunks as [|[t d] chunks IH]; intros st c Hp Hc.
  - simpl. symmetry. by apply with_children_same with c; [|destruct c].
  - rewrite map_cons, run_cons, map_cons, framer_run_cons. cbn [fst snd].
    rewrite (stdout_step _ _ _ _ c) by done.
    destruct (framer (buffer c) d) as [lines tail]. cbn [fst snd].
    rewrite foldl_line_handler_with_children.
    set (st1 := foldl _ st lines).
    rewrite (IH _ (set_buffer tail c)); cycle 1.
    { simpl. rewrite list_lookup_alter_eq.
      unfold st1. by rewrite foldl_line_handler_children, Hp. }
    { by destruct c. }
    cbn [script socket buffer set_buffer].
    destruct (framer_run tail (map snd chunks)) as [more final]. cbn [fst snd].
    rewrite foldl_line_handler_with_children, foldl_app.
    unfold with_children. simpl. f_equal.
    rewrite list_alter_alter_eq. by apply list_alter_ext.
Qed.

End Outbound.

Section Tolerance.
Context `{Platform}.

Lemma parsed_not_blank l v : JSON_parse l = Normal v -> blank l = false.
Proof.
  intros Hl. destruct (blank l) eqn:E; [|done].
  destruct (JSON_parse_blank l E) as [m Hm]. congruence.
Qed.

Lemma is_open_lookup ws st s :
  sockets st !! ws = Some s -> readyState s = OPEN -> is_open ws st = true.
Proof. intros Hs Hr. unfold is_open. rewrite Hs. by apply bool_decide_eq_true. Qed.

Lemma is_open_ws_send ws ws' m st : is_open ws (ws_send ws' m st) = is_open ws st.
Proof.
  unfold is_open, ws_send. simpl. rewrite list_lookup_alter.
  destruct (decide (ws' = ws)) as [->|]; [|done].
  by destruct (sockets st !! ws).
Qed.

(** C5, amended: a recognition worker whose client is connected writes a
    valid JSON line, a line that is not JSON and not white space only, and
    another valid line, cut into chunks in any way that leaves the text
    intact.  The client is sent exactly the two values, in order; the bad
    line is logged as an error; the worker, its registry entry and the
    connection stay as they were, so later lines are processed. *)
Theorem malformed_line_tolerance p (chunks : list (N * Buffer)) st c s l1 l2 l3 v1 v3 m :
  children st !! p = Some c -> script c = Recognition ->
  closed c = false -> buffer c = [] ->
  sockets st !! socket c = Some s -> readyState s = OPEN ->
  sep_free 10 l1 -> sep_free 10 l2 -> sep_free 10 l3 ->
  JSON_parse l1 = Normal v1 ->
  JSON_parse l2 = Throw m -> blank l2 = false ->
  JSON_parse l3 = Normal v3 ->
  concat (map toString (map snd chunks)) = (l1 ++ [10]) ++ (l2 ++ [10]) ++ (l3 ++ [10]) ->
  let st' := run (map (fun td => (fst td, StdoutData p (snd td))) chunks) st in
  sockets st'
  = alter (fun x => push_sent (JSON_stringify v3) (push_sent (JSON_stringify v1) x))
      (socket c) (sockets st)
  /\ log st' = log st ++ [(error, lit "Invalid JSON from recognition process: " ++ l2)]
  /\ children st' = children st
  /\ recognitionProcesses st' = recognitionProcesses st
  /\ chatProcesses st' = chatProcesses st
  /\ timers st' = timers st.
Proof.
  intros Hp Hk Hc Hb Hs Hr F1 F2 F3 P1 P2 B2 P3 HT. cbv zeta.
  rewrite (stdout_run p chunks st c Hp Hc).
  rewrite framer_run_split by (rewrite Hb; constructor).
  rewrite Hb, HT, Hk. unfold complete, pending.
  replace ((l1 ++ [10]) ++ (l2 ++ [10]) ++ l3 ++ [10])
    with (concat (map (fun l => l ++ [10]) [l1; l2; l3]) ++ [])
    by (simpl; by rewrite !app_nil_r).
  rewrite split_go_messages by (by repeat constructor).
  cbn [split_go app removelast last default fst snd foldl line_handler].
  assert (recognition_line (socket c)
            (recognition_line (socket c) (recognition_line (socket c) st l1) l2) l3
          = ws_send (socket c) (JSON_stringify v3)
              (logger error (lit "Invalid JSON from recognition process: " ++ l2)
                 (ws_send (socket c) (JSON_stringify v1) st))) as ->.
  { unfold recognition_line at 3.
    rewrite (parsed_not_blank _ _ P1), P1. unfold send_if_open.
    rewrite (is_open_lookup _ _ _ Hs Hr).
    unfold recognition_line at 2. rewrite B2, P2.
    unfold recognition_line. rewrite (parsed_not_blank _ _ P3), P3.
    unfold send_if_open.
    change (is_open (socket c) (logger ?l ?x ?st0)) with (is_open (socket c) st0).
    by rewrite is_open_ws_send, (is_open_lookup _ _ _ Hs Hr). }
  rewrite (with_children_same p c);
    [ | exact Hp | by destruct c; simpl in *; subst ].
  simpl. by rewrite list_alter_alter_eq.
Qed.

End Tolerance.

(** *** The relay on the reference platform *)

Lemma malformed_line_tolerance_witness :
  let chunks :=
    [(1001, jbytes result_line ++ [Byte.x0a] ++ jbytes "oo");
     (1002, jbytes "ps" ++ [Byte.x0a] ++ jbytes result_line);
     (1003, [Byte.x0a])] in
  let st' := run (map (fun td => (fst td, StdoutData 0 (snd td))) chunks)
               recognition_session in
  sockets st'
  = alter (fun x => push_sent (JSON_stringify result_value)
                      (push_sent (JSON_stringify result_value) x))
      0%nat (sockets recognition_session)
  /\ log st' = log recognition_session
               ++ [(error, lit "Invalid JSON from recognition process: " ++ lit "oops")]
  /\ children st' = children recognition_session
  /\ recognitionProcesses st' = recognitionProcesses recognition_session
  /\ chatProcesses st' = chatProcesses recognition_session
  /\ timers st' = timers recognition_session.
Proof.
  cbv zeta.
  apply (malformed_line_tolerance 0
           [(1001, jbytes result_line ++ [Byte.x0a] ++ jbytes "oo");
            (1002, jbytes "ps" ++ [Byte.x0a] ++ jbytes result_line);
            (1003, [Byte.x0a])]
           recognition_session
           (new_child Recognition (decimal 1000) 0)
           {| clientId := decimal 1000; isChatWs := false; readyState := OPEN;
              recognitionProcess := Some 0%nat; chatProcess := None; sent := [] |}
           (jlit result_line) (lit "oops") (jlit result_line)
           result_value result_value (lit "Unexpected token in JSON")).
  - reflexivity.
  - reflexivity.
  - reflexivity.
  - reflexivity.
  - reflexivity.
  - reflexivity.
  - by apply sep_free_check.
  - by apply sep_free_check.
  - by apply sep_free_check.
  - vm_compute. reflexivity.
  - vm_compute. reflexivity.
  - vm_compute. reflexivity.
  - vm_compute. reflexivity.
  - vm_compute. reflexivity.
Defined.

(** C5 as stated fails: a line holding one space is not JSON, yet the
    filter for empty lines drops it before [JSON.parse] is tried, so no
    decode error is logged for it.  The two valid lines around it are
    relayed. *)
Lemma blank_malformed_line_not_logged :
  let l2 := lit " " in
  let data := jbytes result_line ++ [Byte.x0a] ++ jbytes " " ++ [Byte.x0a]
              ++ jbytes result_line ++ [Byte.x0a] in
  let st' := step 1001 (StdoutData 0 data) recognition_session in
  JSON_parse (jlit result_line) = Normal result_value
  /\ JSON_parse l2 = Throw (lit "Unexpected token in JSON")
  /\ sent <$> sockets st' !! 0%nat
     = Some [JSON_stringify result_value; JSON_stringify result_value]
  /\ log st' = log recognition_session.
Proof. vm_compute. repeat split. Qed.

(** ** The supervisor: connection, spawn failure, worker exit *)

Section Supervisor.
Context `{Platform}.

Lemma alter_snoc {A} (f : A -> A) (l : list A) (x : A) :
  alter f (length l) (l ++ [x]) = l ++ [f x].
Proof.
  replace (length l) with (length l + 0)%nat by lia. by rewrite alter_app_r.
Qed.

Lemma lookup_snoc {A} (l : list A) (x : A) : (l ++ [x]) !! length l = Some x.
Proof. by rewrite lookup_app_r, Nat.sub_diag by lia. Qed.

Lemma send_if_open_open ws v st s :
  sockets st !! ws = Some s -> readyState s = OPEN ->
  send_if_open ws v st = ws_send ws (JSON_stringify v) st.
Proof.
  intros Hs Hr. unfold send_if_open, is_open. rewrite Hs.
  by rewrite bool_decide_eq_true_2.
Qed.

Lemma on_connection_spawned now url st :
  on_connection now url Spawned st
  = let p := length (children st) in
    let ws := length (sockets st) in
    {| recognitionProcesses :=
         if classify url then recognitionProcesses st
         else <[decimal now := p]> (recognitionProcesses st);
       chatProcesses :=
         if classify url then <[decimal now := p]> (chatProcesses st)
         else chatProcesses st;
       sockets :=
         sockets st
         ++ [if classify url then set_chatProcess (Some p) (accepted now url)
             else set_recognitionProcess (Some p) (accepted now url)];
       children := children st ++ [new_child (kind_of (classify url)) (decimal now) ws];
       timers := timers st;
       log := (log st ++ [(info, connection_message now url)])
              ++ [(info,
                   (if classify url then lit "Started chat process for client "
                    else lit "Started recognition process for client ")
                   ++ decimal now)] |}.
Proof.
  unfold on_connection, accepted, connection_message.
  destruct (classify url); cbn -[decimal lit]; unfold with_sockets; cbn -[decimal lit];
    by rewrite alter_snoc.
Qed.

Lemma on_connection_throws now url m st :
  on_connection now url (SpawnThrows m) st
  = {| recognitionProcesses := recognitionProcesses st;
       chatProcesses := chatProcesses st;
       sockets := sockets st
                  ++ [push_sent (JSON_stringify (unavailable (classify url)))
                        (accepted now url)];
       children := children st;
       timers := timers st;
       log := (log st ++ [(info, connection_message now url)])
              ++ [(error,
                   (if classify url then lit "Failed to start chat process: "
                    else lit "Failed to start recognition process: ") ++ m)] |}.
Proof.
  unfold on_connection, startChatProcess, startRecognitionProcess, unavailable.
  fold (accepted now url) (connection_message now url).
  destruct (classify url) eqn:E;
    rewrite (send_if_open_open _ _ _ (accepted now url))
      by (apply lookup_snoc || (unfold accepted; by rewrite ?E));
    unfold ws_send, with_sockets, logger, with_log; cbn -[decimal lit system_message];
    rewrite ?alter_snoc; unfold accepted; by rewrite ?E.
Qed.

(** The ['connection'] listener adds one open socket, with the time as
    its id and the kind of the target. *)
Lemma connection_accepts now url sp st :
  exists s,
    sockets (on_connection now url sp st) = sockets st ++ [s]
    /\ clientId s = decimal now /\ readyState s = OPEN
    /\ isChatWs s = classify url.
Proof.
  destruct sp as [|m].
  - rewrite on_connection_spawned. cbv zeta. cbn [sockets].
    eexists. split; [done|]. unfold accepted. by destruct (classify url).
  - rewrite on_connection_throws. cbn [sockets]. eexists. by split.
Qed.

(** C9: whatever the state, the time and the outcome of [spawn], a new
    connection is accepted and open, and its kind is a function of the
    requested target alone: chat for [/chat], recognition for every other
    target; the worker started for it is of that kind. *)
Theorem kind_classification now url sp st :
  let st' := step now (Connection url sp) st in
  (exists s, sockets st' = sockets st ++ [s] /\ readyState s = OPEN
             /\ kind_of (isChatWs s) = kind_of (classify url))
  /\ (url <> lit "/chat" -> kind_of (classify url) = Recognition)
  /\ (url = lit "/chat" -> kind_of (classify url) = Chat)
  /\ (sp = Spawned ->
      children st'
      = children st
        ++ [new_child (kind_of (classify url)) (decimal now) (length (sockets st))]).
Proof.
  cbv zeta. cbn [step]. repeat split.
  - destruct (connection_accepts now url sp st) as (s & E & _ & Hr & Hk).
    exists s. by rewrite Hk.
  - intros Hu. unfold classify. by rewrite bool_decide_eq_false_2.
  - intros Hu. unfold classify. by rewrite bool_decide_eq_true_2.
  - intros ->. by rewrite on_connection_spawned.
Qed.

(** The [catch] of the two start functions: when [spawn] throws for a new
    connection, the client is sent exactly one message, the fixed system
    notice of its kind, in which the error does not occur; neither registry
    gets an entry and no child exists for the session.  The same holds
    when the restart of a chat worker throws while the client is still
    connected. *)
Theorem spawn_failure_handling now url m st :
  let st' := step now (Connection url (SpawnThrows m)) st in
  sockets st'
  = sockets st ++ [push_sent (JSON_stringify (unavailable (classify url)))
                     (accepted now url)]
  /\ recognitionProcesses st' = recognitionProcesses st
  /\ chatProcesses st' = chatProcesses st
  /\ children st' = children st
  /\ timers st' = timers st
  /\ forall i t, timers st !! i = Some t -> due t <= now ->
       let st'' := step now (Timeout i (SpawnThrows m)) st in
       sockets st''
       = (if is_open (timer_ws t) st
          then alter (push_sent (JSON_stringify (unavailable true))) (timer_ws t)
                 (sockets st)
          else sockets st)
       /\ recognitionProcesses st'' = recognitionProcesses st
       /\ chatProcesses st'' = chatProcesses st
       /\ children st'' = children st.
Proof.
  cbv zeta. cbn [step]. rewrite on_connection_throws.
  do 5 (split; [done|]). intros i t Ht Hd.
  unfold on_timeout. rewrite Ht. apply N.leb_le in Hd. rewrite Hd.
  repeat split.
  all: unfold startChatProcess, send_if_open; cbn [fst];
    change (is_open (timer_ws t) (logger ?l ?x (with_timers ?f st)))
      with (is_open (timer_ws t) st);
    by destruct (is_open (timer_ws t) st).
Qed.

(** C7 fails for the launch failures that [spawn] reports through the
    child.  A client connects while the worker program cannot be launched:
    [spawn] returns a child, so the session is registered under its id, the
    log says that the process was started and the client is sent nothing;
    when the child then emits ['error'], the server ends.  For a chat and
    for a recognition client alike. *)
Lemma launch_failure_unreported :
  let failure := lit "spawn python ENOENT" in
  let chat := step 1000 (Connection (lit "/chat") Spawned) initial in
  let recognition := step 1000 (Connection (lit "/ws") Spawned) initial in
  (chatProcesses chat !! decimal 1000 = Some 0%nat
   /\ sent <$> sockets chat !! 0%nat = Some []
   /\ last (log chat) = Some (info, lit "Started chat process for client 1000")
   /\ serve [Handled 1000 (Connection (lit "/chat") Spawned); ChildError 0 failure]
        initial = None)
  /\ (recognitionProcesses recognition !! decimal 1000 = Some 0%nat
      /\ sent <$> sockets recognition !! 0%nat = Some []
      /\ last (log recognition)
         = Some (info, lit "Started recognition process for client 1000")
      /\ serve [Handled 1000 (Connection (lit "/ws") Spawned); ChildError 0 failure]
           initial = None).
Proof. vm_compute. repeat split. Qed.

Lemma script_alter (f : ChildProcess -> ChildProcess) p l :
  (forall c, script (f c) = script c) ->
  map script (alter f p l) = map script l.
Proof.
  intros Hf. revert p. induction l as [|c l IH]; intros [|p]; simpl; try done.
  - by rewrite Hf.
  - f_equal. apply IH.
Qed.

(** Only the ['connection'] listener spawns a recognition worker: any
    other event leaves the scripts of the children as they are, or adds
    one chat worker. *)
Lemma step_scripts now ev st :
  (forall url sp, ev <> Connection url sp) ->
  exists extra,
    map script (children (step now ev st)) = map script (children st) ++ extra
    /\ Forall (fun k => k = Chat) extra.
Proof.
  intros Hev.
  destruct ev as [url sp|ws message|ws|ws|p data|p data|p code|i sp];
    [by destruct (Hev url sp)| | | | | | |].
  7: { cbn [step]. unfold on_timeout, startChatProcess, send_if_open.
       destruct (timers st !! i) as [t|]; [|by exists []; rewrite app_nil_r].
       destruct (due t <=? now); [|by exists []; rewrite app_nil_r].
       destruct sp as [|m]; cbn [fst].
       - exists [Chat]. cbn. rewrite map_app. by repeat constructor.
       - exists []. rewrite app_nil_r. split; [|constructor].
         by destruct (is_open _ _). }
  all: exists []; rewrite app_nil_r; split; [|constructor]; cbn [step].
  - unfold on_message_chat, on_message_recognition, send_if_open, get_prop, template.
    repeat case_match; cbn; rewrite ?script_alter; done.
  - by case_match.
  - unfold socket_state, on_ws_close.
    repeat case_match; cbn; rewrite ?script_alter; done.
  - unfold child_closed, on_stdout.
    destruct (children st !! p) as [c|]; cbn; [|done].
    destruct (closed c); [done|].
    destruct (framer (buffer c) data) as [lines tail].
    rewrite foldl_line_handler_children. cbn. by rewrite script_alter.
  - unfold child_closed, on_stderr. repeat case_match; done.
  - unfold child_closed, on_child_close.
    repeat case_match; cbn; rewrite ?script_alter; done.
Qed.

Lemma run_scripts evs : forall st,
  Forall (fun e => forall url sp, snd e <> Connection url sp) evs ->
  exists extra,
    map script (children (run evs st)) = map script (children st) ++ extra
    /\ Forall (fun k => k = Chat) extra.
Proof.
  induction evs as [|[t e] evs IH]; intros st Hall.
  - exists []. by rewrite app_nil_r.
  - inversion Hall as [|? ? He Hrest]; subst. rewrite run_cons.
    destruct (step_scripts t e st He) as (x1 & E1 & F1).
    destruct (IH (step t e st) Hrest) as (x2 & E2 & F2).
    exists (x1 ++ x2). rewrite E2, E1, <- app_assoc. split; [done|].
    by apply Forall_app.
Qed.

(** C4: when the worker of a recognition session exits, its ['close']
    listener removes the entry of the session from
    [recognitionProcesses]; no child is added, no timer is set and no
    socket is touched, so nothing is sent to the client.  Whatever happens
    next, as long as no new connection is accepted, every worker spawned is
    a chat worker. *)
Theorem recognition_non_restart now p code st c :
  children st !! p = Some c -> script c = Recognition -> closed c = false ->
  let st' := step now (ChildClose p code) st in
  recognitionProcesses st' = delete (owner c) (recognitionProcesses st)
  /\ recognitionProcesses st' !! owner c = None
  /\ chatProcesses st' = chatProcesses st
  /\ children st' = alter set_closed p (children st)
  /\ length (children st') = length (children st)
  /\ timers st' = timers st
  /\ sockets st' = sockets st
  /\ forall evs,
       Forall (fun e => forall url sp, snd e <> Connection url sp) evs ->
       exists extra,
         map script (children (run evs st')) = map script (children st) ++ extra
         /\ Forall (fun k => k = Chat) extra.
Proof.
  intros Hp Hk Hc. cbv zeta.
  split; [|split; [|split; [|split; [|split; [|split; [|split]]]]]].
  8: { intros evs Hevs.
       destruct (run_scripts evs (step now (ChildClose p code) st) Hevs)
         as (extra & E & F).
       exists extra. split; [|done]. rewrite E. f_equal.
       destruct (step_scripts now (ChildClose p code) st) as (x & Ex & Fx); [done|].
       cbn [step] in *. unfold child_closed, on_child_close in *.
       rewrite Hp in *. cbn [fmap option_fmap option_map] in *. rewrite Hc, Hk in *.
       cbn. by rewrite script_alter. }
  all: cbn [step]; unfold child_closed, on_child_close;
    rewrite Hp; cbn [fmap option_fmap option_map]; rewrite Hc, Hk; cbn; try done.
  - apply lookup_delete_eq.
  - apply length_alter.
Qed.

(** C3, amended: when the worker of a chat session exits while the client
    is connected, the client is sent the restart notice and a timer is set
    1000 ms ahead; no worker is spawned by the exit itself, and the entry
    of the session is removed from [chatProcesses].  Whenever that timer
    is pending, it does nothing before its time; from its time on it
    spawns a chat worker for the same [clientId] and socket and enters it
    under that [clientId]. *)
Theorem chat_restart_cadence now p code st c s :
  children st !! p = Some c -> script c = Chat -> closed c = false ->
  sockets st !! socket c = Some s -> readyState s = OPEN ->
  let st' := step now (ChildClose p code) st in
  let t := {| due := now + 1000; timer_clientId := owner c; timer_ws := socket c |} in
  sockets st'
  = alter (push_sent (JSON_stringify
                        (system_message "Chat process terminated, restarting...")))
      (socket c) (sockets st)
  /\ timers st' = timers st ++ [t]
  /\ children st' = alter set_closed p (children st)
  /\ chatProcesses st' = delete (owner c) (chatProcesses st)
  /\ chatProcesses st' !! owner c = None
  /\ forall later st1 i, timers st1 !! i = Some t ->
       let st2 := step later (Timeout i Spawned) st1 in
       (later < now + 1000 -> st2 = st1)
       /\ (now + 1000 <= later ->
           children st2 = children st1 ++ [new_child Chat (owner c) (socket c)]
           /\ chatProcesses st2
              = <[owner c := length (children st1)]> (chatProcesses st1)
           /\ timers st2 = delete i (timers st1)).
Proof.
  intros Hp Hk Hc Hs Hr. cbv zeta. cbn [step].
  unfold child_closed, on_child_close.
  rewrite Hp. cbn [fmap option_fmap option_map]. rewrite Hc, Hk.
  match goal with |- context [is_open ?w ?x] =>
    change (is_open w x) with (is_open (socket c) st) end.
  rewrite (is_open_lookup _ _ _ Hs Hr).
  cbn -[N.add]. do 4 (split; [done|]). split; [apply lookup_delete_eq|].
  intros later st1 i Ht. unfold on_timeout. rewrite Ht. cbn -[N.add]. split.
  - intros Hl. by rewrite (proj2 (N.leb_gt _ _) Hl).
  - intros Hl. by rewrite (proj2 (N.leb_le _ _) Hl).
Qed.

End Supervisor.

Lemma recognition_non_restart_witness :
  let st' := step 1500 (ChildClose 0 (Some 1)) recognition_session in
  recognitionProcesses st' = delete (decimal 1000) (recognitionProcesses recognition_session)
  /\ recognitionProcesses st' !! decimal 1000 = None
  /\ chatProcesses st' = chatProcesses recognition_session
  /\ children st' = alter set_closed 0%nat (children recognition_session)
  /\ length (children st') = length (children recognition_session)
  /\ timers st' = timers recognition_session
  /\ sockets st' = sockets recognition_session
  /\ forall evs,
       Forall (fun e => forall url sp, snd e <> Connection url sp) evs ->
       exists extra,
         map script (children (run evs st'))
         = map script (children recognition_session) ++ extra
         /\ Forall (fun k => k = Chat) extra.
Proof.
  apply (recognition_non_restart 1500 0 (Some 1) recognition_session
           (new_child Recognition (decimal 1000) 0)); reflexivity.
Defined.

Lemma chat_restart_cadence_witness :
  let st' := step 1500 (ChildClose 0 (Some 1)) chat_session in
  let t := {| due := 1500 + 1000; timer_clientId := decimal 1000; timer_ws := 0 |} in
  sockets st'
  = alter (push_sent (JSON_stringify
                        (system_message "Chat process terminated, restarting...")))
      0%nat (sockets chat_session)
  /\ timers st' = timers chat_session ++ [t]
  /\ children st' = alter set_closed 0%nat (children chat_session)
  /\ chatProcesses st' = delete (decimal 1000) (chatProcesses chat_session)
  /\ chatProcesses st' !! decimal 1000 = None
  /\ forall later st1 i, timers st1 !! i = Some t ->
       let st2 := step later (Timeout i Spawned) st1 in
       (later < 1500 + 1000 -> st2 = st1)
       /\ (1500 + 1000 <= later ->
           children st2 = children st1 ++ [new_child Chat (decimal 1000) 0]
           /\ chatProcesses st2
              = <[decimal 1000 := length (children st1)]> (chatProcesses st1)
           /\ timers st2 = delete i (timers st1)).
Proof.
  apply (chat_restart_cadence 1500 0 (Some 1) chat_session
           (new_child Chat (decimal 1000) 0)
           {| clientId := decimal 1000; isChatWs := true; readyState := OPEN;
              recognitionProcess := None; chatProcess := Some 0%nat; sent := [] |});
    reflexivity.
Defined.

(** C3 as stated fails: the entry of the session does not stay as it was
    across the restart.  The exit of worker 0 removes the entry, and the
    restart enters the new worker 1 under the same [clientId]. *)
Lemma chat_restart_changes_registry :
  let st1 := step 1500 (ChildClose 0 (Some 1)) chat_session in
  let st2 := step 2500 (Timeout 0 Spawned) st1 in
  chatProcesses chat_session !! decimal 1000 = Some 0%nat
  /\ chatProcesses st1 !! decimal 1000 = None
  /\ chatProcesses st2 !! decimal 1000 = Some 1%nat.
Proof. vm_compute. repeat split. Qed.

(** ** Client messages: from the socket to the worker *)

Section Inbound.
Context `{Platform}.

Lemma is_string_true expected v :
  v = Some (JStr (lit expected)) -> is_string expected v = true.
Proof. intros ->. simpl. by apply bool_decide_eq_true. Qed.

Lemma is_string_false expected v :
  v <> Some (JStr (lit expected)) -> is_string expected v = false.
Proof.
  intros Hv. destruct v as [[]|]; simpl; try done.
  apply bool_decide_eq_false. congruence.
Qed.

Lemma message_step now ws message st s :
  sockets st !! ws = Some s -> readyState s <> CLOSED ->
  step now (Message ws message) st
  = if isChatWs s then on_message_chat now ws message st
    else on_message_recognition now ws message st.
Proof.
  intros Hs Hr. cbn [step]. rewrite Hs. by rewrite bool_decide_eq_false_2.
Qed.

Lemma write_all_app l1 l2 c : write_all (l1 ++ l2) c = write_all l2 (write_all l1 c).
Proof. unfold write_all. by rewrite foldl_app. Qed.

Lemma send_all_app l1 l2 s : send_all (l1 ++ l2) s = send_all l2 (send_all l1 s).
Proof. unfold send_all. by rewrite foldl_app. Qed.

Lemma send_all_fields ms : forall s,
  clientId (send_all ms s) = clientId s /\ isChatWs (send_all ms s) = isChatWs s
  /\ readyState (send_all ms s) = readyState s
  /\ worker_of (send_all ms s) = worker_of s
  /\ sent (send_all ms s) = sent s ++ ms.
Proof.
  induction ms as [|m ms IH]; intros s; [by rewrite app_nil_r|].
  change (send_all (m :: ms) s) with (send_all ms (push_sent m s)).
  destruct (IH (push_sent m s)) as (-> & -> & -> & -> & ->).
  repeat split. cbn. by rewrite <- app_assoc.
Qed.

Lemma stdin_write_all lines : forall c, stdin (write_all lines c) = stdin c ++ lines.
Proof.
  induction lines as [|l ls IH]; intros c; simpl.
  - by rewrite app_nil_r.
  - change (stdin (write_all ls (push_stdin l c)) = stdin c ++ l :: ls).
    rewrite IH. simpl. by rewrite <- app_assoc.
Qed.

Lemma is_open_ready ws st s :
  sockets st !! ws = Some s -> is_open ws st = bool_decide (readyState s = OPEN).
Proof. intros Hs. unfold is_open. by rewrite Hs. Qed.

(** One message on a connection that holds a worker: what it writes, logs
    and sends back is what its shape says, and nothing else changes. *)
Lemma message_shape now ws message st s p :
  sockets st !! ws = Some s -> readyState s <> CLOSED -> worker_of s = Some p ->
  let st' := step now (Message ws message) st in
  children st'
  = alter (write_all (option_list (relay_line (isChatWs s) now message))) p (children st)
  /\ log st' = log st ++ relay_log (isChatWs s) message
  /\ sockets st'
     = alter (send_all (relay_reply (isChatWs s) (readyState s) message)) ws (sockets st)
  /\ recognitionProcesses st' = recognitionProcesses st
  /\ chatProcesses st' = chatProcesses st
  /\ timers st' = timers st.
Proof.
  intros Hs Hr Hp. cbv zeta. rewrite (message_step _ _ _ _ s) by done.
  pose proof (is_open_ready _ _ _ Hs) as Ho.
  unfold worker_of in Hp. unfold relay_line, relay_log, relay_reply, shape.
  destruct (isChatWs s); cbn [expected_type payload_key andb] in *; cbv zeta;
    unfold on_message_chat, on_message_recognition, send_if_open; rewrite Hs, Hp;
    change (is_open ws (logger ?l ?x st)) with (is_open ws st); rewrite ?Ho;
    destruct (JSON_parse (toString message)) as [[| | | | |props]|m];
    cbn [get_prop option_list];
    try destruct (is_string _ (assoc (lit "type") props));
    try destruct (template (assoc (lit "query") props)) as [text|m'] eqn:Et;
    try destruct (bool_decide (readyState s = OPEN));
    cbn [option_list]; rewrite ?Et;
    rewrite ?(list_alter_id (write_all [])), ?(list_alter_id (send_all [])),
      ?app_nil_r by done;
    done.
Qed.

Lemma messages_relayed ws p msgs : forall st s,
  sockets st !! ws = Some s -> readyState s <> CLOSED -> worker_of s = Some p ->
  let st' := run (arrivals ws msgs) st in
  children st' = alter (write_all (relay_lines (isChatWs s) msgs)) p (children st)
  /\ log st' = log st ++ relay_logs (isChatWs s) msgs
  /\ sockets st'
     = alter (send_all (relay_replies (isChatWs s) (readyState s) msgs)) ws (sockets st)
  /\ recognitionProcesses st' = recognitionProcesses st
  /\ chatProcesses st' = chatProcesses st
  /\ timers st' = timers st.
Proof.
  induction msgs as [|[t m] msgs IH]; intros st s Hs Hr Hp; cbv zeta.
  - cbn. rewrite app_nil_r, !list_alter_id; done.
  - unfold arrivals. rewrite map_cons, run_cons. cbn [fst snd].
    fold (arrivals ws msgs).
    destruct (message_shape t ws m st s p Hs Hr Hp)
      as (Hc1 & Hl1 & Hs1 & Hr1 & Hch1 & Ht1).
    set (st1 := step t (Message ws m) st) in *.
    set (s1 := send_all (relay_reply (isChatWs s) (readyState s) m) s).
    destruct (send_all_fields (relay_reply (isChatWs s) (readyState s) m) s)
      as (_ & Hk & Hrs & Hw & _). fold s1 in Hk, Hrs, Hw.
    destruct (IH st1 s1) as (Hc2 & Hl2 & Hs2 & Hr2 & Hch2 & Ht2).
    { rewrite Hs1, list_lookup_alter_eq, Hs. done. }
    { by rewrite Hrs. }
    { by rewrite Hw. }
    rewrite Hc2, Hl2, Hs2, Hr2, Hch2, Ht2, Hc1, Hl1, Hs1, Hr1, Hch1, Ht1, Hk, Hrs.
    rewrite !list_alter_alter_eq.
    unfold relay_lines, relay_logs, relay_replies.
    cbn [omap list_omap map concat fst snd].
    repeat split.
    + apply list_alter_ext; [|done]. intros c _. cbn.
      destruct (relay_line (isChatWs s) t m); cbn [option_list]; [|done].
      by rewrite <- write_all_app.
    + by rewrite <- app_assoc.
    + apply list_alter_ext; [|done]. intros x _. cbn. by rewrite <- send_all_app.
Qed.

(** C6, amended.  Take a connection that is not closed and whose worker
    is the one registered for the session.  Of the messages it receives,
    those that are JSON objects of the type of its kind (['frame'] for
    recognition, ['query'] for chat; for chat with a payload that has a
    string conversion) are written to the input of that worker in the
    order received, each as one line: the JSON object of the payload, left
    out when the message has none, and of the time of receipt, then a
    newline.  A message that is not JSON or is [null], and a chat query
    without a string conversion, is logged as an error and dropped, and an
    open chat connection is sent a fixed notice.  Every other message is
    dropped and leaves no trace, the log included.  No message closes the
    connection, and the registries and timers stay as they are. *)
Theorem inbound_relay ws st s p msgs :
  sockets st !! ws = Some s -> readyState s <> CLOSED ->
  worker_of s = Some p -> registry_of (isChatWs s) st !! clientId s = Some p ->
  let st' := run (arrivals ws msgs) st in
  children st' = alter (write_all (relay_lines (isChatWs s) msgs)) p (children st)
  /\ log st' = log st ++ relay_logs (isChatWs s) msgs
  /\ sockets st'
     = alter (send_all (relay_replies (isChatWs s) (readyState s) msgs)) ws (sockets st)
  /\ readyState <$> sockets st' !! ws = Some (readyState s)
  /\ recognitionProcesses st' = recognitionProcesses st
  /\ chatProcesses st' = chatProcesses st
  /\ timers st' = timers st.
Proof.
  intros Hs Hr Hp _. cbv zeta.
  destruct (messages_relayed ws p msgs st s Hs Hr Hp) as (Hc & Hl & Hso & Hre & Hch & Ht).
  repeat split; try done.
  rewrite Hso, list_lookup_alter_eq, Hs. cbn.
  by destruct (send_all_fields (relay_replies (isChatWs s) (readyState s) msgs) s)
    as (_ & _ & -> & _).
Qed.

End Inbound.

(** The messages of the witness: a query, a message of another type, text
    that is not JSON, a query without a payload, [null], and a second
    query. *)
Lemma inbound_relay_witness :
  let s := {| clientId := decimal 1000; isChatWs := true; readyState := OPEN;
              recognitionProcess := None; chatProcess := Some 0%nat; sent := [] |} in
  let st := chat_session in
  let msgs := [(1001, jbytes "{'type':'query','query':'who was last?'}");
               (1002, jbytes "{'type':'ping'}");
               (1003, jbytes "hello");
               (1004, jbytes "{'type':'query'}");
               (1005, jbytes "null");
               (1006, jbytes "{'query':'how many?','type':'query'}")] in
  let st' := run (arrivals 0 msgs) st in
  children st' = alter (write_all (relay_lines (isChatWs s) msgs)) 0%nat (children st)
  /\ log st' = log st ++ relay_logs (isChatWs s) msgs
  /\ sockets st'
     = alter (send_all (relay_replies (isChatWs s) (readyState s) msgs)) 0%nat (sockets st)
  /\ readyState <$> sockets st' !! 0%nat = Some (readyState s)
  /\ recognitionProcesses st' = recognitionProcesses st
  /\ chatProcesses st' = chatProcesses st
  /\ timers st' = timers st.
Proof.
  apply (inbound_relay 0 chat_session
           {| clientId := decimal 1000; isChatWs := true; readyState := OPEN;
              recognitionProcess := None; chatProcess := Some 0%nat; sent := [] |}
           0%nat
           [(1001, jbytes "{'type':'query','query':'who was last?'}");
            (1002, jbytes "{'type':'ping'}");
            (1003, jbytes "hello");
            (1004, jbytes "{'type':'query'}");
            (1005, jbytes "null");
            (1006, jbytes "{'query':'how many?','type':'query'}")]).
  - reflexivity.
  - discriminate.
  - reflexivity.
  - reflexivity.
Defined.

(** What the messages of the witness are and what becomes of them. *)
Example inbound_relay_shapes :
  let msgs := [(1001, jbytes "{'type':'query','query':'who was last?'}");
               (1002, jbytes "{'type':'ping'}");
               (1003, jbytes "hello");
               (1004, jbytes "{'type':'query'}");
               (1005, jbytes "null");
               (1006, jbytes "{'query':'how many?','type':'query'}")] in
  map (fun x => shape true (snd x)) msgs
  = [Relayed (Some (JStr (lit "who was last?"))); Ignored;
     Rejected (lit "Unexpected token in JSON");
     Relayed None;
     Rejected (lit "Cannot read properties of null (reading 'type')");
     Relayed (Some (JStr (lit "how many?")))]
  /\ relay_lines true msgs
     = [jlit "{'query':'who was last?','timestamp':1001}" ++ [10];
        jlit "{'timestamp':1004}" ++ [10];
        jlit "{'query':'how many?','timestamp':1006}" ++ [10]]
  /\ relay_replies true OPEN msgs
     = [jlit "{'type':'system','message':'Invalid message format. Please try again.'}";
        jlit "{'type':'system','message':'Invalid message format. Please try again.'}"].
Proof. vm_compute. repeat split. Qed.

(** A frame without an image is relayed all the same, as a line that
    holds the time only. *)
Example frame_without_image_relayed :
  let st' := step 1001 (Message 0 (jbytes "{'type':'frame'}")) recognition_session in
  stdin <$> children st' !! 0%nat = Some [jlit "{'timestamp':1001}" ++ [10]]
  /\ log st' = log recognition_session.
Proof. vm_compute. split; reflexivity. Qed.

(** Two frames, the second with its properties in the other order, and a
    chat query: what the workers find on their input. *)
Example frames_relayed :
  let st' := run [(1001, Message 0 (jbytes "{'type':'frame','image':'data:image/jpeg;base64,AAAA'}"));
                  (1002, Message 0 (jbytes "{'image':'BBBB','type':'frame'}"))]
               recognition_session in
  stdin <$> children st' !! 0%nat
  = Some [jlit "{'image':'data:image/jpeg;base64,AAAA','timestamp':1001}" ++ [10];
          jlit "{'image':'BBBB','timestamp':1002}" ++ [10]].
Proof. vm_compute. reflexivity. Qed.

Example query_relayed :
  let st' := step 1001 (Message 0 (jbytes "{'type':'query','query':'who was last?'}"))
               chat_session in
  stdin <$> children st' !! 0%nat
  = Some [jlit "{'query':'who was last?','timestamp':1001}" ++ [10]]
  /\ log st' = log chat_session ++ [(info, lit "Received chat query: who was last?")].
Proof. vm_compute. split; reflexivity. Qed.

(** C6 as stated fails: a message of a shape the connection does not
    relay is dropped without a word in the log. *)
Lemma unrecognized_shape_not_logged :
  let message := jbytes "{'type':'ping'}" in
  let st' := step 1001 (Message 0 message) recognition_session in
  JSON_parse (toString message) = Normal (JObj [(lit "type", JStr (lit "ping"))])
  /\ log st' = log recognition_session
  /\ st' = recognition_session.
Proof. vm_compute. repeat split. Qed.

(** ** Session ids and leaks *)

Section Leaks.
Context `{Platform}.

(** C8, evaluated where it fails: two connections accepted within the same
    millisecond get the same [clientId]; the second worker takes the
    registry entry of the first.  An id is also given again after its
    session has gone, when the clock reads the same. *)
Theorem same_millisecond_same_clientId :
  let st := run [(1000, Connection (lit "/ws") Spawned);
                 (1000, Connection (lit "/ws") Spawned)] initial in
  let st2 := run [(1000, Connection (lit "/ws") Spawned);
                  (1000, Close 0);
                  (1000, Connection (lit "/ws") Spawned)] initial in
  map clientId (sockets st) = [decimal 1000; decimal 1000]
  /\ length (children st) = 2%nat
  /\ recognitionProcesses st = {[ decimal 1000 := 1%nat ]}
  /\ map clientId (sockets st2) = [decimal 1000; decimal 1000]
  /\ map readyState (sockets st2) = [CLOSED; OPEN].
Proof. vm_compute. repeat split. Qed.

(** C1, evaluated where it fails.  A chat worker exits while its client is
    connected, the client disconnects during the backoff, and the timer
    then fires: [startChatProcess] spawns worker 1 and enters it in
    [chatProcesses] for a socket that is closed.  No connection is open,
    the registry is not empty, and worker 1 has not been killed and is
    running.  Second, two recognition clients accepted in the same
    millisecond both disconnect: the registries are empty, and worker 0,
    still running, was never killed. *)
Theorem restart_after_disconnect_leaks :
  let st := run [(1000, Connection (lit "/chat") Spawned);
                 (1500, ChildClose 0 (Some 1));
                 (1600, Close 0);
                 (2500, Timeout 0 Spawned)] initial in
  let st2 := run [(1000, Connection (lit "/ws") Spawned);
                  (1000, Connection (lit "/ws") Spawned);
                  (2000, Close 0);
                  (3000, Close 1)] initial in
  all_closed st = true
  /\ chatProcesses st = {[ decimal 1000 := 1%nat ]}
  /\ map killed (children st) = [false; false]
  /\ map closed (children st) = [true; false]
  /\ all_closed st2 = true
  /\ recognitionProcesses st2 = ∅ /\ chatProcesses st2 = ∅
  /\ map killed (children st2) = [false; true]
  /\ map closed (children st2) = [false; false].
Proof. vm_compute. repeat split. Qed.

End Leaks.

(** ** What holds of ids and of teardown *)

Section Ids.
Context `{Platform}.

Lemma lit_inj s1 s2 : lit s1 = lit s2 -> s1 = s2.
Proof.
  revert s2. induction s1 as [|a s1 IH]; intros [|b s2]; simpl; try done.
  intros [= Hab Hs]. f_equal; [|by apply IH].
  by rewrite <- (ascii_N_embedding a), <- (ascii_N_embedding b), Hab.
Qed.

Lemma decimal_inj n1 n2 : decimal n1 = decimal n2 -> n1 = n2.
Proof. intros Hn%lit_inj. by apply (inj pretty). Qed.

(** Two connections accepted one after the other at different times get
    different ids. *)
Theorem distinct_times_distinct_ids st now1 now2 url1 url2 sp1 sp2 :
  now1 <> now2 ->
  let st' := run [(now1, Connection url1 sp1); (now2, Connection url2 sp2)] st in
  exists s1 s2,
    sockets st' = sockets st ++ [s1; s2]
    /\ clientId s1 = decimal now1 /\ clientId s2 = decimal now2
    /\ clientId s1 <> clientId s2.
Proof.
  intros Hne. cbv zeta. rewrite !run_cons. cbn [run foldl step].
  destruct (connection_accepts now1 url1 sp1 st) as (s1 & E1 & I1 & _).
  destruct (connection_accepts now2 url2 sp2 (on_connection now1 url1 sp1 st))
    as (s2 & E2 & I2 & _).
  exists s1, s2. rewrite E2, E1, <- app_assoc, I1, I2.
  repeat split. by intros ?%decimal_inj.
Qed.

End Ids.

Lemma distinct_times_distinct_ids_witness :
  let st' := run [(1000, Connection (lit "/ws") Spawned);
                  (1001, Connection (lit "/chat") Spawned)] initial in
  exists s1 s2,
    sockets st' = sockets initial ++ [s1; s2]
    /\ clientId s1 = decimal 1000 /\ clientId s2 = decimal 1001
    /\ clientId s1 <> clientId s2.
Proof.
  apply (distinct_times_distinct_ids initial 1000 1001 (lit "/ws") (lit "/chat")
           Spawned Spawned).
  discriminate.
Defined.

Section Teardown.
Context `{Platform}.

(** When a client disconnects while the registry of its kind has an entry
    under its [clientId], the worker in that entry is sent [kill()] and
    the entry is removed; the other registry is not touched. *)
Theorem disconnect_kills_registered now ws st s p :
  sockets st !! ws = Some s -> readyState s <> CLOSED ->
  registry_of (isChatWs s) st !! clientId s = Some p ->
  let st' := step now (Close ws) st in
  children st' = alter set_killed p (children st)
  /\ registry_of (isChatWs s) st' = delete (clientId s) (registry_of (isChatWs s) st)
  /\ registry_of (negb (isChatWs s)) st' = registry_of (negb (isChatWs s)) st
  /\ sockets st' = alter (set_readyState CLOSED) ws (sockets st)
  /\ timers st' = timers st.
Proof.
  intros Hs Hr Hp. cbv zeta. cbn [step]. unfold socket_state. rewrite Hs.
  cbn [fmap option_fmap option_map].
  assert (on_ws_close ws st
          = if isChatWs s
            then with_chatProcesses (delete (clientId s))
                   (logger info (lit "Terminated chat process for client " ++ clientId s)
                      (kill p (logger info
                         (lit "WebSocket chat connection closed for client " ++ clientId s)
                         (with_sockets (alter (set_readyState CLOSED) ws) st))))
            else with_recognitionProcesses (delete (clientId s))
                   (logger info
                      (lit "Terminated recognition process for client " ++ clientId s)
                      (kill p (logger info
                         (lit "WebSocket recognition connection closed for client "
                          ++ clientId s)
                         (with_sockets (alter (set_readyState CLOSED) ws) st))))) as E.
  { unfold on_ws_close, registry_of in *. rewrite Hs.
    destruct (isChatWs s); cbn [chatProcesses recognitionProcesses logger with_log
      with_sockets]; by rewrite Hp. }
  assert (match readyState s with
          | CLOSED => st
          | _ => on_ws_close ws st
          end = on_ws_close ws st) as -> by (by destruct (readyState s)).
  rewrite E. unfold registry_of. by destruct (isChatWs s).
Qed.

End Teardown.

Lemma disconnect_kills_registered_witness :
  let st' := step 2000 (Close 0) chat_session in
  children st' = alter set_killed 0%nat (children chat_session)
  /\ registry_of true st' = delete (decimal 1000) (registry_of true chat_session)
  /\ registry_of (negb true) st' = registry_of (negb true) chat_session
  /\ sockets st' = alter (set_readyState CLOSED) 0%nat (sockets chat_session)
  /\ timers st' = timers chat_session.
Proof.
  apply (disconnect_kills_registered 2000 0 chat_session
           {| clientId := decimal 1000; isChatWs := true; readyState := OPEN;
              recognitionProcess := None; chatProcess := Some 0%nat; sent := [] |}
           0%nat).
  - reflexivity.
  - discriminate.
  - reflexivity.
Defined.

(** * Invariants of the supervisor *)

Section Shapes.
Context `{Platform}.

Lemma upd_id s : upd None [] s = s.
Proof. destruct s. unfold upd. simpl. by rewrite app_nil_r. Qed.

Lemma upd_upd r1 r2 n1 n2 s :
  upd r2 n2 (upd r1 n1 s)
  = upd (match r2 with Some r => Some r | None => r1 end) (n1 ++ n2) s.
Proof. unfold upd. simpl. rewrite <- app_assoc. by destruct r2, r1. Qed.

Lemma set_readyState_upd r s : set_readyState r s = upd (Some r) [] s.
Proof. unfold upd, set_readyState. simpl. by rewrite app_nil_r. Qed.

Lemma alter_upd_id (l : list WebSocket) ws : alter (upd None []) ws l = l.
Proof. apply list_alter_id, upd_id. Qed.

Lemma relays_mono l1 l2 m : l1 ⊆ l2 -> relays l1 m -> relays l2 m.
Proof. intros Hl (line & v & Hin & Hp & ->). exists line, v. split; [by apply Hl|done]. Qed.

Lemma notice_in v : v ∈ notices -> is_notice (JSON_stringify v).
Proof. intros Hv. by exists v. Qed.

(** One line of worker output: at most one [send], to the socket of the
    worker and only if it is open. *)
Lemma line_handler_sockets k ws st line :
  exists new,
    sockets (line_handler k ws st line) = alter (upd None new) ws (sockets st)
    /\ Forall (fun m => is_notice m \/ relays [line] m) new
    /\ (new <> [] -> is_open ws st = true).
Proof.
  destruct k; simpl; unfold recognition_line, chat_line, send_if_open.
  all: destruct (blank line); [exists []; by rewrite alter_upd_id|].
  all: destruct (JSON_parse line) as [v|m] eqn:E.
  all: try change (is_open ws (logger ?l ?x st)) with (is_open ws st).
  all: destruct (is_open ws st) eqn:Eo;
    try (exists []; by rewrite alter_upd_id).
  - exists [JSON_stringify v]. split; [done|]. split; [|done].
    constructor; [|done]. right. exists line, v. split; [constructor|done].
  - exists [JSON_stringify v]. split; [done|]. split; [|done].
    constructor; [|done]. right. exists line, v. split; [constructor|done].
  - eexists [_]. split; [done|]. split; [|done].
    constructor; [|done]. left. apply notice_in. set_solver.
Qed.

Lemma line_handler_is_open k ws ws' st line :
  is_open ws' (line_handler k ws st line) = is_open ws' st.
Proof.
  destruct k; simpl; unfold recognition_line, chat_line, send_if_open.
  all: destruct (blank line); [done|].
  all: destruct (JSON_parse line); try done.
  all: try change (is_open ws (logger ?l ?x st)) with (is_open ws st).
  all: destruct (is_open ws st); try done.
  all: by rewrite is_open_ws_send.
Qed.

Lemma foldl_line_handler_sockets k ws lines : forall st,
  exists new,
    sockets (foldl (line_handler k ws) st lines) = alter (upd None new) ws (sockets st)
    /\ Forall (fun m => is_notice m \/ relays lines m) new
    /\ (new <> [] -> is_open ws st = true).
Proof.
  induction lines as [|l ls IH]; intros st; simpl.
  - exists []. by rewrite alter_upd_id.
  - destruct (line_handler_sockets k ws st l) as (n1 & E1 & A1 & O1).
    destruct (IH (line_handler k ws st l)) as (n2 & E2 & A2 & O2).
    exists (n1 ++ n2). rewrite E2, E1, list_alter_alter_eq. split; [|split].
    + apply list_alter_ext; [|done]. intros s _. simpl. by rewrite upd_upd.
    + apply Forall_app. split.
      * eapply Forall_impl; [exact A1|]. intros m [Hm|Hm]; [by left|right].
        eapply relays_mono; [|exact Hm].
        intros x Hx%list_elem_of_singleton. subst. constructor.
      * eapply Forall_impl; [exact A2|]. intros m [Hm|Hm]; [by left|right].
        eapply relays_mono; [|exact Hm]. intros x Hx. by constructor.
    + intros Hne. destruct n1 as [|x n1]; [|by apply O1].
      rewrite <- (line_handler_is_open k ws ws st l). by apply O2.
Qed.

Ltac same_sockets :=
  exists 0%nat, None, (@nil jsstring), (@nil WebSocket);
  rewrite alter_upd_id, app_nil_r;
  split; [done|]; split; [constructor|]; split; [intros _; constructor|];
  split; [done|]; done.

Ltac one_notice ws :=
  eexists ws, None, [_], (@nil WebSocket);
  rewrite app_nil_r;
  split; [done|];
  split; [constructor; [left; apply notice_in; set_solver|constructor]|];
  split; [intros _; constructor; [apply notice_in; set_solver|constructor]|];
  split; [done|]; done.

(** What one turn of the event loop does to the sockets: at most one of
    them is changed, by a new [readyState] or by sends, the sends only on
    an open socket; a ['connection'] adds one socket. *)
Lemma step_sockets now ev st :
  exists ws0 r new extra,
    sockets (step now ev st) = alter (upd r new) ws0 (sockets st) ++ extra
    /\ Forall (fun m => is_notice m \/ from_output ws0 ev st m) new
    /\ ((forall p d, ev <> StdoutData p d) -> Forall is_notice new)
    /\ (new <> [] -> is_open ws0 st = true)
    /\ match ev with
       | Connection url sp =>
           new = [] /\ r = None /\ exists s, extra = [s] /\ fresh_socket now url sp st s
       | _ => extra = []
       end.
Proof.
  destruct ev as [url sp|ws message|ws|ws|p data|p data|p code|i sp]; cbn [step].
  - exists 0%nat, None, []. rewrite alter_upd_id.
    destruct sp as [|m].
    + rewrite on_connection_spawned. cbv zeta. cbn [sockets]. eexists [_].
      split; [done|]. split; [constructor|]. split; [intros _; constructor|].
      split; [done|]. split; [done|]. split; [done|]. eexists. split; [done|].
      unfold fresh_socket, accepted.
      destruct (classify url); cbn; repeat split; constructor.
    + rewrite on_connection_throws. cbn [sockets]. eexists [_].
      split; [done|]. split; [constructor|]. split; [intros _; constructor|].
      split; [done|]. split; [done|]. split; [done|]. eexists. split; [done|].
      unfold fresh_socket, accepted, unavailable. cbn.
      repeat split. constructor; [|constructor].
      apply notice_in. destruct (classify url); set_solver.
  - destruct (sockets st !! ws) as [s|] eqn:Es; [|same_sockets].
    case_bool_decide; [same_sockets|].
    destruct (isChatWs s); unfold on_message_chat, on_message_recognition;
      rewrite Es; unfold send_if_open, get_prop, template.
    all: repeat case_match; try same_sockets.
    all: try change (is_open ws (logger ?l ?x st)) with (is_open ws st) in *.
    all: one_notice ws.
  - destruct (is_open ws st) eqn:Eo; [|same_sockets].
    exists ws, (Some CLOSING), [], []. rewrite app_nil_r. cbn.
    split; [apply list_alter_ext; [|done]; intros; apply set_readyState_upd|].
    repeat split; try done; constructor.
  - unfold socket_state.
    destruct (sockets st !! ws) as [s|] eqn:Es;
      cbn [fmap option_fmap option_map]; [|same_sockets].
    assert (exists st', (sockets st' = alter (set_readyState CLOSED) ws (sockets st))
              /\ match readyState s with
                 | CLOSED => st
                 | _ => on_ws_close ws st
                 end = (if bool_decide (readyState s = CLOSED) then st else st'))
      as (st' & Hs' & ->).
    { eexists (on_ws_close ws st). unfold on_ws_close. rewrite Es. split.
      - destruct (isChatWs s); cbn; repeat case_match; done.
      - by destruct (readyState s). }
    case_bool_decide; [same_sockets|].
    exists ws, (Some CLOSED), [], []. rewrite app_nil_r, Hs'.
    split; [apply list_alter_ext; [|done]; intros; apply set_readyState_upd|].
    repeat split; try done; constructor.
  - unfold child_closed, on_stdout.
    destruct (children st !! p) as [c|] eqn:Ec;
      cbn [fmap option_fmap option_map]; [|same_sockets].
    destruct (closed c) eqn:Ecl; [same_sockets|].
    destruct (framer (buffer c) data) as [lines tail] eqn:Ef.
    destruct (foldl_line_handler_sockets (script c) (socket c) lines
                (with_children (alter (set_buffer tail) p) st))
      as (new & E & A & O).
    exists (socket c), None, new, []. rewrite app_nil_r.
    split; [exact E|]. split.
    { eapply Forall_impl; [exact A|]. intros m [Hm|Hm]; [by left|right].
      exists p, data, c. rewrite Ef. done. }
    split; [by intros Hne; destruct (Hne p data)|].
    split; [exact O|done].
  - unfold child_closed, on_stderr.
    destruct (children st !! p) as [c|] eqn:Ec;
      cbn [fmap option_fmap option_map]; [|same_sockets].
    destruct (closed c); same_sockets.
  - unfold child_closed, on_child_close.
    destruct (children st !! p) as [c|] eqn:Ec; cbn [fmap option_fmap option_map];
      [|same_sockets].
    destruct (closed c); [same_sockets|].
    destruct (script c); [same_sockets|].
    match goal with |- context [is_open ?w ?x] =>
      change (is_open w x) with (is_open (socket c) st) end.
    destruct (is_open (socket c) st) eqn:Eo; [|same_sockets].
    one_notice (socket c).
  - unfold on_timeout.
    destruct (timers st !! i) as [t|] eqn:Et; [|same_sockets].
    destruct (due t <=? now); [|same_sockets].
    destruct sp as [|m]; unfold startChatProcess, send_if_open; cbn [fst];
      [same_sockets|].
    match goal with |- context [is_open ?w ?x] =>
      change (is_open w x) with (is_open (timer_ws t) st) end.
    destruct (is_open (timer_ws t) st) eqn:Eo; [|same_sockets].
    one_notice (timer_ws t).
Qed.

Lemma cupd_id c : cupd None [] false false c = c.
Proof. destruct c. unfold cupd. simpl. by rewrite app_nil_r, !orb_false_r. Qed.

Lemma alter_cupd_id (l : list ChildProcess) p : alter (cupd None [] false false) p l = l.
Proof. apply list_alter_id, cupd_id. Qed.

Lemma set_buffer_cupd b c : set_buffer b c = cupd (Some b) [] false false c.
Proof. unfold cupd, set_buffer. simpl. by rewrite app_nil_r, !orb_false_r. Qed.

Lemma push_stdin_cupd m c : push_stdin m c = cupd None [m] false false c.
Proof. unfold cupd, push_stdin. simpl. by rewrite !orb_false_r. Qed.

Lemma set_killed_cupd c : set_killed c = cupd None [] true false c.
Proof. unfold cupd, set_killed. simpl. by rewrite app_nil_r, orb_true_r, orb_false_r. Qed.

Lemma set_closed_cupd c : set_closed c = cupd None [] false true c.
Proof. unfold cupd, set_closed. simpl. by rewrite app_nil_r, orb_true_r, orb_false_r. Qed.

Ltac same_children :=
  exists 0%nat, None, (@nil jsstring), false, false;
  rewrite alter_cupd_id, ?app_nil_r;
  split; [done|]; split; [done|]; split; [done|]; done.

(** What one turn of the event loop does to the children: at most one of
    them is changed.  Only a client message writes to an input, and to the
    input of the worker that the variable of its connection holds; only
    the worker's own ['close'] marks it closed; only a disconnect kills,
    and it kills the worker registered under the id of the connection. *)
Lemma step_children now ev st :
  exists p0 b ins k cl,
    children (step now ev st)
    = alter (cupd b ins k cl) p0 (children st) ++ spawned_child now ev st
    /\ (ins <> [] ->
        exists ws message s,
          ev = Message ws message /\ sockets st !! ws = Some s
          /\ worker_of s = Some p0)
    /\ (cl = true ->
        exists code c,
          ev = ChildClose p0 code /\ children st !! p0 = Some c /\ closed c = false)
    /\ (k = true ->
        exists ws s,
          ev = Close ws /\ sockets st !! ws = Some s
          /\ registry_of (isChatWs s) st !! clientId s = Some p0).
Proof.
  destruct ev as [url sp|ws message|ws|ws|p data|p data|p code|i sp];
    cbn [step spawned_child].
  - destruct sp as [|m].
    + rewrite on_connection_spawned. same_children.
    + rewrite on_connection_throws. same_children.
  - destruct (sockets st !! ws) as [s|] eqn:Es; [|same_children].
    case_bool_decide; [same_children|].
    destruct (isChatWs s) eqn:Ek; unfold on_message_chat, on_message_recognition;
      rewrite Es; unfold send_if_open, get_prop, template.
    all: repeat case_match; try same_children.
    all: match goal with
         | |- context [stdin_write ?p ?m _] =>
             exists p, None, [m], false, false; rewrite app_nil_r;
             split; [cbn; apply list_alter_ext; [|done];
                     intros; apply push_stdin_cupd|];
             split; [intros _; exists ws, message, s; unfold worker_of;
                     rewrite Ek; done|];
             split; done
         end.
  - case_match; same_children.
  - unfold socket_state.
    destruct (sockets st !! ws) as [s|] eqn:Es;
      cbn [fmap option_fmap option_map]; [|same_children].
    assert (match readyState s with
            | CLOSED => st
            | _ => on_ws_close ws st
            end = (if bool_decide (readyState s = CLOSED) then st
                   else on_ws_close ws st)) as -> by (by destruct (readyState s)).
    case_bool_decide; [same_children|].
    unfold on_ws_close. rewrite Es.
    destruct (isChatWs s) eqn:Ek; cbn [chatProcesses recognitionProcesses logger
      with_log with_sockets].
    + destruct (chatProcesses st !! clientId s) as [q|] eqn:Eq; [|same_children].
      exists q, None, [], true, false. rewrite app_nil_r.
      split; [cbn; apply list_alter_ext; [|done]; intros; apply set_killed_cupd|].
      split; [done|]. split; [done|].
      intros _. exists ws, s. unfold registry_of. by rewrite Ek.
    + destruct (recognitionProcesses st !! clientId s) as [q|] eqn:Eq; [|same_children].
      exists q, None, [], true, false. rewrite app_nil_r.
      split; [cbn; apply list_alter_ext; [|done]; intros; apply set_killed_cupd|].
      split; [done|]. split; [done|].
      intros _. exists ws, s. unfold registry_of. by rewrite Ek.
  - unfold child_closed, on_stdout.
    destruct (children st !! p) as [c|] eqn:Ec;
      cbn [fmap option_fmap option_map]; [|same_children].
    destruct (closed c); [same_children|].
    destruct (framer (buffer c) data) as [lines tail].
    rewrite foldl_line_handler_children. cbn.
    exists p, (Some tail), [], false, false. rewrite app_nil_r.
    split; [apply list_alter_ext; [|done]; intros; apply set_buffer_cupd|].
    split; done.
  - unfold child_closed, on_stderr.
    destruct (children st !! p) as [c|] eqn:Ec;
      cbn [fmap option_fmap option_map]; [|same_children].
    destruct (closed c); same_children.
  - unfold child_closed, on_child_close.
    destruct (children st !! p) as [c|] eqn:Ec;
      cbn [fmap option_fmap option_map]; [|same_children].
    destruct (closed c) eqn:Ecl; [same_children|].
    exists p, None, [], false, true. rewrite app_nil_r.
    split.
    { destruct (script c); [cbn|];
        [|match goal with |- context [is_open ?w ?x] => destruct (is_open w x) end; cbn];
        apply list_alter_ext; try done; intros; apply set_closed_cupd. }
    split; [done|]. split; [|done]. intros _. by exists code, c.
  - unfold on_timeout.
    destruct (timers st !! i) as [t|] eqn:Et; [|destruct sp; same_children].
    destruct (due t <=? now); [|destruct sp; same_children].
    destruct sp as [|m]; unfold startChatProcess, send_if_open; cbn [fst].
    + exists 0%nat, None, [], false, false. rewrite alter_cupd_id. by cbn.
    + match goal with |- context [is_open ?w ?x] => destruct (is_open w x) end;
        same_children.
Qed.

Lemma foldl_line_handler_reg kc ws k lines : forall st,
  reg k (foldl (line_handler kc ws) st lines) = reg k st.
Proof.
  induction lines as [|l ls IH]; intros st; [done|]. cbn [foldl]. rewrite IH.
  destruct kc; simpl; unfold recognition_line, chat_line, send_if_open;
    repeat case_match; by destruct k.
Qed.

Lemma foldl_line_handler_timers kc ws lines : forall st,
  timers (foldl (line_handler kc ws) st lines) = timers st.
Proof.
  induction lines as [|l ls IH]; intros st; [done|]. cbn [foldl]. rewrite IH.
  destruct kc; simpl; unfold recognition_line, chat_line, send_if_open;
    by repeat case_match.
Qed.

(** What one turn does to a registry: nothing, or the entry of the child
    it spawns, or one deletion, which for the ['close'] of a child of the
    registry's kind is the deletion of the key the child was spawned
    under. *)
Lemma step_registry now ev st k :
  (reg k (step now ev st) = reg k st
   /\ forall p code c, ev = ChildClose p code -> children st !! p = Some c ->
        closed c = false -> script c <> k)
  \/ (exists c, spawned_child now ev st = [c] /\ script c = k
        /\ reg k (step now ev st) = <[owner c := length (children st)]> (reg k st))
  \/ (exists id0, reg k (step now ev st) = delete id0 (reg k st)
        /\ forall p code c, ev = ChildClose p code -> children st !! p = Some c ->
             closed c = false -> script c = k -> id0 = owner c).
Proof.
  destruct ev as [url sp|ws message|ws|ws|p data|p data|p code|i sp];
    cbn [step spawned_child].
  - destruct sp as [|m].
    + rewrite on_connection_spawned. cbv zeta.
      destruct (classify url) eqn:Ec, k; cbn [reg chatProcesses recognitionProcesses kind_of].
      * left. by split.
      * right. left. eexists. by repeat split.
      * right. left. eexists. by repeat split.
      * left. by split.
    + rewrite on_connection_throws. left. split; [by destruct k|done].
  - left. split; [|done].
    destruct (sockets st !! ws) as [s|] eqn:Es; [|done].
    case_bool_decide; [done|].
    destruct (isChatWs s); unfold on_message_chat, on_message_recognition;
      rewrite Es; unfold send_if_open, get_prop, template.
    all: repeat case_match; by destruct k.
  - left. split; [|done]. case_match; by destruct k.
  - unfold socket_state.
    destruct (sockets st !! ws) as [s|] eqn:Es;
      cbn [fmap option_fmap option_map]; [|by left].
    assert (match readyState s with
            | CLOSED => st
            | _ => on_ws_close ws st
            end = (if bool_decide (readyState s = CLOSED) then st
                   else on_ws_close ws st)) as -> by (by destruct (readyState s)).
    case_bool_decide; [by left|].
    unfold on_ws_close. rewrite Es.
    destruct (isChatWs s) eqn:Ek; cbn [chatProcesses recognitionProcesses logger
      with_log with_sockets].
    + destruct (chatProcesses st !! clientId s) as [q|] eqn:Eq;
        [|left; split; [by destruct k|done]].
      destruct k; [left; by split|].
      right. right. exists (clientId s). by split.
    + destruct (recognitionProcesses st !! clientId s) as [q|] eqn:Eq;
        [|left; split; [by destruct k|done]].
      destruct k; [|left; by split].
      right. right. exists (clientId s). by split.
  - left. split; [|done]. unfold child_closed, on_stdout.
    destruct (children st !! p) as [c|] eqn:Ec;
      cbn [fmap option_fmap option_map]; [|done].
    destruct (closed c); [done|].
    destruct (framer (buffer c) data) as [lines tail].
    rewrite foldl_line_handler_reg. by destruct k.
  - left. split; [|done]. unfold child_closed, on_stderr.
    destruct (children st !! p) as [c|] eqn:Ec;
      cbn [fmap option_fmap option_map]; [|done].
    destruct (closed c); by destruct k.
  - unfold child_closed, on_child_close.
    destruct (children st !! p) as [c|] eqn:Ec;
      cbn [fmap option_fmap option_map];
      [|left; split; [done|]; intros ? ? ? [= <- <-]; congruence].
    destruct (closed c) eqn:Ecl;
      [left; split; [done|]; intros ? ? ? [= <- <-]; congruence|].
    destruct (script c) eqn:Ek.
    + destruct k.
      * right. right. exists (owner c). split; [done|].
        intros ? ? ? [= <- <-]. congruence.
      * left. split; [done|]. intros ? ? ? [= <- <-]. congruence.
    + destruct k.
      * left. split; [|intros ? ? ? [= <- <-]; congruence].
        match goal with |- context [is_open ?w ?x] => by destruct (is_open w x) end.
      * right. right. exists (owner c). split.
        { match goal with |- context [is_open ?w ?x] => by destruct (is_open w x) end. }
        intros ? ? ? [= <- <-]. congruence.
  - unfold on_timeout.
    destruct (timers st !! i) as [t|] eqn:Et;
      [|left; split; [done|]; by destruct sp].
    destruct (due t <=? now); [|left; split; [done|]; by destruct sp].
    destruct sp as [|m]; unfold startChatProcess, send_if_open; cbn [fst].
    + destruct k; [left; by split|].
      right. left. eexists. by repeat split.
    + left. split; [|done].
      match goal with |- context [is_open ?w ?x] => destruct (is_open w x) end;
        by destruct k.
Qed.

Lemma shape_lookup {A} (f : A -> A) p0 (l extra : list A) q x :
  (alter f p0 l ++ extra) !! q = Some x ->
  (exists c, l !! q = Some c /\ x = if decide (q = p0) then f c else c)
  \/ (length l <= q /\ extra !! (q - length l) = Some x)%nat.
Proof.
  intros Hq. destruct (decide (q < length l)%nat) as [Hlt|Hge].
  - left. rewrite lookup_app_l in Hq by (by rewrite length_alter).
    rewrite list_lookup_alter in Hq.
    destruct (decide (p0 = q)) as [->|Hne].
    + destruct (l !! q) as [c|]; [|done]. exists c. split; [done|].
      rewrite decide_True by done. by injection Hq.
    + exists x. split; [done|]. by rewrite decide_False by done.
  - right. split; [lia|].
    rewrite lookup_app_r in Hq by (rewrite length_alter; lia).
    by rewrite length_alter in Hq.
Qed.

Lemma shape_lookup_old {A} (f : A -> A) p0 (l extra : list A) q c :
  l !! q = Some c ->
  (alter f p0 l ++ extra) !! q = Some (if decide (q = p0) then f c else c).
Proof.
  intros Hq. rewrite lookup_app_l
    by (rewrite length_alter; by apply lookup_lt_Some with c).
  rewrite list_lookup_alter.
  destruct (decide (p0 = q)) as [->|Hne].
  - rewrite Hq. by rewrite decide_True.
  - by rewrite decide_False by done.
Qed.

Lemma run_snoc evs t e st : run (evs ++ [(t, e)]) st = step t e (run evs st).
Proof. unfold run. by rewrite foldl_app. Qed.

(** Induction over the reachable states. *)
Lemma reachable_ind (P : State -> Prop) :
  P initial ->
  (forall now ev st, reachable st -> P st -> P (step now ev st)) ->
  forall st, reachable st -> P st.
Proof.
  intros H0 Hstep st [evs ->].
  induction evs as [|[t e] evs IH] using rev_ind; [done|].
  rewrite run_snoc. apply Hstep; [by exists evs|done].
Qed.

Lemma reachable_step now ev st : reachable st -> reachable (step now ev st).
Proof. intros [evs ->]. exists (evs ++ [(now, ev)]). by rewrite run_snoc. Qed.

Lemma reachable_run evs st : reachable st -> reachable (run evs st).
Proof.
  revert st. induction evs as [|[t e] evs IH]; intros st Hst; [done|].
  rewrite run_cons. by apply IH, reachable_step.
Qed.

(** In any state and for any event, an existing socket keeps its id, its
    kind and its two variables; its [sent] only grows, it does not grow
    unless the socket is open, and outside the stdout listener it grows by
    fixed notices only.  What the stdout listener adds, besides the notice
    for a malformed line, relays lines of the output it is handling, which
    is output of a running worker of this socket. *)
Theorem sends_only_when_open now ev st ws s :
  sockets st !! ws = Some s ->
  exists s' new,
    sockets (step now ev st) !! ws = Some s'
    /\ clientId s' = clientId s /\ isChatWs s' = isChatWs s
    /\ recognitionProcess s' = recognitionProcess s
    /\ chatProcess s' = chatProcess s
    /\ sent s' = sent s ++ new
    /\ (readyState s <> OPEN -> new = [])
    /\ ((forall p d, ev <> StdoutData p d) -> Forall is_notice new)
    /\ Forall (fun m => is_notice m \/ from_output ws ev st m) new.
Proof.
  intros Hs.
  destruct (step_sockets now ev st) as (ws0 & r & new & extra & E & A & N & O & _).
  rewrite E, (shape_lookup_old _ _ _ _ _ _ Hs).
  destruct (decide (ws = ws0)) as [->|Hne].
  - exists (upd r new s), new. repeat split; try done.
    intros Hr. destruct new as [|x new]; [done|].
    assert (is_open ws0 st = true) as Ho by (by apply O).
    unfold is_open in Ho. rewrite Hs in Ho. by apply bool_decide_eq_true in Ho.
  - exists s, []. rewrite app_nil_r. repeat split; try done; constructor.
Qed.

Lemma from_worker_snoc ws evs e m : from_worker ws evs m -> from_worker ws (evs ++ [e]) m.
Proof.
  intros (evs1 & now & ev & evs2 & -> & Hm).
  exists evs1, now, ev, (evs2 ++ [e]). split; [|done].
  by rewrite <- app_assoc.
Qed.

(** Every message that the server has ever sent on a socket is a fixed
    notice, or it is [JSON.stringify] of the value that [JSON.parse]
    returned for a line that the framer cut from the output of a running
    worker spawned for that socket. *)
Theorem sent_messages_origin evs ws s :
  sockets (run evs initial) !! ws = Some s ->
  Forall (fun m => is_notice m \/ from_worker ws evs m) (sent s).
Proof.
  revert ws s. induction evs as [|[now ev] evs IH] using rev_ind; intros ws s' Hs'.
  { cbn in Hs'. by rewrite lookup_nil in Hs'. }
  rewrite run_snoc in Hs'.
  destruct (step_sockets now ev (run evs initial))
    as (ws0 & r & new & extra & E & A & _ & _ & X).
  rewrite E in Hs'. apply shape_lookup in Hs' as [(s & Hs & ->)|[Hge Hx]].
  - assert (Forall (fun m => is_notice m \/ from_worker ws (evs ++ [(now, ev)]) m) (sent s))
      as Hold.
    { eapply Forall_impl; [exact (IH ws s Hs)|].
      intros m [Hm|Hm]; [by left|right]. by apply from_worker_snoc. }
    case_decide as Hws; [subst ws0|done].
    simpl. apply Forall_app. split; [done|].
    eapply Forall_impl; [exact A|]. intros m [Hm|Hm]; [by left|right].
    exists evs, now, ev, []. done.
  - destruct ev; try (by rewrite X in Hx).
    destruct X as (_ & _ & s0 & -> & F).
    destruct (ws - length (sockets (run evs initial)))%nat; [|done]. injection Hx as <-.
    destruct F as (_ & _ & _ & F & _).
    eapply Forall_impl; [exact F|]. by left.
Qed.

Lemma spawned_child_fresh now ev st c :
  spawned_child now ev st = [c] ->
  closed c = false /\ stdin c = [] /\ killed c = false
  /\ (forall p code, ev <> ChildClose p code)
  /\ (forall ws m, ev <> Message ws m).
Proof.
  destruct ev as [url [|m]| | | | | | |i [|m]]; cbn [spawned_child]; try done.
  - by intros [= <-].
  - repeat case_match; try done. by intros [= <-].
Qed.

Lemma cupd_static b ins k cl c :
  script (cupd b ins k cl c) = script c /\ owner (cupd b ins k cl c) = owner c
  /\ socket (cupd b ins k cl c) = socket c.
Proof. done. Qed.

Lemma registry_sound_step now ev st k :
  registry_sound k (reg k st) st ->
  registry_sound k (reg k (step now ev st)) (step now ev st).
Proof.
  intros Hsound id q Hq.
  destruct (step_children now ev st) as (p0 & b & ins & kl & cl & Ec & _ & Hcl & _).
  assert (forall c, children st !! q = Some c -> script c = k -> owner c = id ->
            closed c = false ->
            (cl = true -> q = p0 -> False) ->
            exists c', children (step now ev st) !! q = Some c'
                       /\ script c' = k /\ owner c' = id /\ closed c' = false) as Hold.
  { intros c Hc Hk Ho Hcc Hno. rewrite Ec, (shape_lookup_old _ _ _ _ _ _ Hc).
    case_decide.
    - eexists. split; [done|]. repeat split; try done. simpl. rewrite Hcc.
      destruct cl; [by destruct Hno|done].
    - by exists c. }
  destruct (step_registry now ev st k) as [[E Hne]|[(c & Sp & Hk & E)|(id0 & E & Hid)]].
  - rewrite E in Hq. destruct (Hsound id q Hq) as (c & Hc & Hk & Ho & Hcc).
    apply (Hold c); try done. intros -> ->.
    destruct (Hcl eq_refl) as (code & c0 & -> & Hc0 & Hcc0).
    apply (Hne p0 code c0); try done. congruence.
  - rewrite E in Hq. destruct (spawned_child_fresh _ _ _ _ Sp) as (Hf1 & _ & _ & Hf2 & _).
    destruct (decide (owner c = id)) as [<-|Hid].
    + rewrite lookup_insert_eq in Hq. injection Hq as <-.
      exists c. split; [|done]. rewrite Ec, Sp.
      rewrite lookup_app_r by (by rewrite length_alter).
      by rewrite length_alter, Nat.sub_diag.
    + rewrite lookup_insert_ne in Hq by done.
      destruct (Hsound id q Hq) as (c1 & Hc & Hk1 & Ho & Hcc).
      apply (Hold c1); try done. intros -> ->.
      destruct (Hcl eq_refl) as (code & c0 & -> & _). by destruct (Hf2 p0 code).
  - rewrite E in Hq. apply lookup_delete_Some in Hq as [Hne Hq].
    destruct (Hsound id q Hq) as (c & Hc & Hk & Ho & Hcc).
    apply (Hold c); try done. intros -> ->.
    destruct (Hcl eq_refl) as (code & c0 & -> & Hc0 & Hcc0).
    apply Hne. rewrite (Hid p0 code c0) by congruence. congruence.
Qed.

(** In every reachable state each registry entry holds a child of the
    registry's kind that was spawned under the entry's key and whose
    ['close'] has not fired: a registered worker is a running one. *)
Theorem registries_sound st :
  reachable st ->
  registry_sound Recognition (recognitionProcesses st) st
  /\ registry_sound Chat (chatProcesses st) st.
Proof.
  revert st.
  apply (reachable_ind (fun st =>
    registry_sound Recognition (reg Recognition st) st
    /\ registry_sound Chat (reg Chat st) st)).
  - split; intros id p Hp; cbn [reg initial chatProcesses recognitionProcesses] in Hp;
      by rewrite lookup_empty in Hp.
  - intros now ev st _ [H1 H2]. split; by apply registry_sound_step.
Qed.

Lemma variables_sound_step now ev st :
  variables_sound st -> variables_sound (step now ev st).
Proof.
  intros Hsound ws s' p Hs' Hv.
  destruct (step_children now ev st) as (p0 & b & ins & kl & cl & Ec & _).
  destruct (step_sockets now ev st) as (ws0 & r & new & extra & E & _ & _ & _ & X).
  rewrite E in Hs'. apply shape_lookup in Hs' as [(s & Hs & ->)|[Hge Hx]].
  - assert (exists c, children st !! p = Some c /\ socket c = ws
                      /\ owner c = clientId s /\ script c = kind_of (isChatWs s)
                      /\ worker_of s = Some p) as (c & Hc & H1 & H2 & H3 & H4).
    { apply (Hsound ws s p Hs). by case_decide. }
    rewrite Ec, (shape_lookup_old _ _ _ _ _ _ Hc).
    eexists. split; [done|]. by repeat case_decide.
  - destruct ev as [url sp| | | | | | |]; try (by rewrite X in Hx).
    destruct X as (_ & _ & s0 & -> & F).
    destruct (ws - length (sockets st))%nat eqn:Ews; [|done]. injection Hx as <-.
    assert (ws = length (sockets st)) as -> by lia.
    destruct F as (F1 & F2 & _ & _ & F3 & F4).
    rewrite F3, F4 in Hv.
    destruct sp as [|m]; [|by destruct Hv].
    cbn [spawned_child] in Ec.
    assert (p = length (children st)) as ->
      by (destruct (classify url); destruct Hv; congruence).
    exists (new_child (kind_of (classify url)) (decimal now) (length (sockets st))).
    split.
    { rewrite Ec, lookup_app_r by (by rewrite length_alter).
      by rewrite length_alter, Nat.sub_diag. }
    unfold worker_of. rewrite F1, F2, F3, F4. by destruct (classify url).
Qed.

Lemma variables_sound_reachable st : reachable st -> variables_sound st.
Proof.
  revert st. apply reachable_ind.
  - intros ws s p Hs. cbn [initial sockets] in Hs. by rewrite lookup_nil in Hs.
  - intros now ev st _. apply variables_sound_step.
Qed.

(** Input isolation: in a reachable state, the input of a worker changes
    only by a message arriving on the connection the worker was spawned
    for, and then lines are added at its end. *)
Theorem input_isolation now ev st p c c' :
  reachable st ->
  children st !! p = Some c ->
  children (step now ev st) !! p = Some c' ->
  (exists ins, stdin c' = stdin c ++ ins)
  /\ (stdin c' <> stdin c -> exists message, ev = Message (socket c) message).
Proof.
  intros Hr Hc Hc'.
  destruct (step_children now ev st) as (p0 & b & ins & kl & cl & Ec & Hins & _).
  rewrite Ec, (shape_lookup_old _ _ _ _ _ _ Hc) in Hc'. injection Hc' as <-.
  case_decide as Hp; [subst p0|split; [exists []; by rewrite app_nil_r|done]].
  split; [by exists ins|]. simpl. intros Hne.
  destruct Hins as (ws & message & s & -> & Hs & Hw).
  { intros ->. by rewrite app_nil_r in Hne. }
  exists message. f_equal.
  destruct (variables_sound_reachable st Hr ws s p Hs) as (c0 & Hc0 & <- & _).
  { unfold worker_of in Hw. destruct (isChatWs s); auto. }
  congruence.
Qed.

Lemma unheld_step now ev st n : unheld n st -> unheld n (step now ev st).
Proof.
  intros [Hv Hn].
  destruct (children st !! n) as [c|] eqn:Hc; [|done]. injection Hn as Hn.
  destruct (step_children now ev st) as (p0 & b & ins & kl & cl & Ec & Hins & _).
  destruct (step_sockets now ev st) as (ws0 & r & new & extra & E & _ & _ & _ & X).
  split.
  - intros ws s' Hs'. rewrite E in Hs'.
    apply shape_lookup in Hs' as [(s & Hs & ->)|[Hge Hx]].
    + destruct (Hv ws s Hs). by case_decide.
    + destruct ev as [url sp| | | | | | |]; try (by rewrite X in Hx).
      destruct X as (_ & _ & s0 & -> & F).
      destruct (ws - length (sockets st))%nat; [|done]. injection Hx as <-.
      destruct F as (_ & _ & _ & _ & -> & ->).
      apply lookup_lt_Some in Hc.
      destruct sp; [|done]. destruct (classify url); split; try done;
        intros [= Heq]; lia.
  - rewrite Ec, (shape_lookup_old _ _ _ _ _ _ Hc). case_decide as Hp; cbn; [|by rewrite Hn].
    f_equal. rewrite Hn. destruct ins as [|x ins]; [done|]. subst p0.
    destruct Hins as (ws & message & s & -> & Hs & Hw); [done|].
    destruct (Hv ws s Hs). unfold worker_of in Hw. by destruct (isChatWs s).
Qed.

Lemma unheld_run evs : forall st n, unheld n st -> unheld n (run evs st).
Proof.
  induction evs as [|[t e] evs IH]; intros st n Hn; [done|].
  rewrite run_cons. by apply IH, unheld_step.
Qed.

(** The worker that the restart timer spawns is entered in
    [chatProcesses] under the id of the session, but the variable of the
    connection still holds the worker that exited: whatever happens next,
    nothing is ever written to the input of the replacement. *)
Theorem restarted_worker_gets_no_input st1 now i t evs :
  reachable st1 -> timers st1 !! i = Some t -> due t <= now ->
  let st2 := step now (Timeout i Spawned) st1 in
  let n := length (children st1) in
  children st2 = children st1 ++ [new_child Chat (timer_clientId t) (timer_ws t)]
  /\ chatProcesses st2 !! timer_clientId t = Some n
  /\ stdin <$> children (run evs st2) !! n = Some [].
Proof.
  intros Hr Ht Hd. cbv zeta.
  assert (step now (Timeout i Spawned) st1
          = fst (startChatProcess (timer_clientId t) (timer_ws t) Spawned
                   (with_timers (delete i) st1))) as E.
  { cbn [step]. unfold on_timeout. rewrite Ht.
    by rewrite (proj2 (N.leb_le _ _) Hd). }
  rewrite E. cbn [startChatProcess fst]. split; [done|].
  split; [cbn; apply lookup_insert_eq|].
  apply unheld_run. split.
  - intros ws s Hs. cbn in Hs.
    pose proof (variables_sound_reachable st1 Hr ws s) as Hv.
    split; intros Hp.
    + destruct (Hv _ Hs (or_introl Hp)) as (c & Hc & _).
      apply lookup_lt_Some in Hc. lia.
    + destruct (Hv _ Hs (or_intror Hp)) as (c & Hc & _).
      apply lookup_lt_Some in Hc. lia.
  - cbn. by rewrite lookup_snoc.
Qed.

(** Output isolation: a chunk of output of worker [p] leads to sends on
    the socket [p] was spawned for and on no other; it writes to no
    worker's input and leaves registries and timers alone. *)
Theorem output_isolation now p data st c :
  children st !! p = Some c ->
  let st' := step now (StdoutData p data) st in
  (forall ws, ws <> socket c -> sockets st' !! ws = sockets st !! ws)
  /\ map stdin (children st') = map stdin (children st)
  /\ recognitionProcesses st' = recognitionProcesses st
  /\ chatProcesses st' = chatProcesses st
  /\ timers st' = timers st.
Proof.
  intros Hc. cbv zeta. cbn [step]. unfold child_closed, on_stdout. rewrite Hc.
  cbn [fmap option_fmap option_map].
  destruct (closed c); [done|].
  destruct (framer (buffer c) data) as [lines tail].
  destruct (foldl_line_handler_sockets (script c) (socket c) lines
              (with_children (alter (set_buffer tail) p) st)) as (new & E & _).
  split; [|split; [|split; [|split]]].
  - intros ws Hne. rewrite E. cbn. by rewrite list_lookup_alter_ne.
  - rewrite foldl_line_handler_children. cbn.
    generalize (children st) p. clear.
    induction l as [|x l IH]; intros [|p]; cbn; try done. f_equal. apply IH.
  - etransitivity; [apply (foldl_line_handler_reg _ _ Recognition)|done].
  - etransitivity; [apply (foldl_line_handler_reg _ _ Chat)|done].
  - by rewrite foldl_line_handler_timers.
Qed.

Lemma split_go_free_all sep cur s :
  sep_free sep cur -> Forall (sep_free sep) (split_go sep cur s).
Proof.
  revert cur. induction s as [|c s IH]; intros cur Hcur; simpl.
  - by constructor.
  - destruct (N.eqb_spec c sep) as [->|Hc].
    + constructor; [done|]. apply IH. constructor.
    + apply IH. apply Forall_app. split; [done|]. by constructor.
Qed.

Lemma split_go_join sep cur s :
  concat (map (fun l => l ++ [sep]) (removelast (split_go sep cur s)))
  ++ default [] (last (split_go sep cur s))
  = cur ++ s.
Proof.
  revert cur. induction s as [|c s IH]; intros cur; simpl.
  - by rewrite app_nil_r.
  - destruct (N.eqb_spec c sep) as [->|Hc].
    + specialize (IH []).
      destruct (split_go sep [] s) as [|x l] eqn:E;
        [by destruct (split_go_nonempty sep [] s)|].
      rewrite last_cons_cons. cbn [removelast map concat].
      rewrite <- !app_assoc. cbn. f_equal. f_equal. exact IH.
    + rewrite IH. by rewrite <- app_assoc.
Qed.

(** The framer cuts exactly at the newlines and loses nothing: the lines
    it hands over and the buffer it keeps hold no newline, and the lines,
    each with its newline, followed by the buffer are the old buffer
    followed by the text of the chunk. *)
Theorem framer_cuts_at_newlines buffer data :
  Forall (sep_free 10) (fst (framer buffer data))
  /\ sep_free 10 (snd (framer buffer data))
  /\ concat (map (fun l => l ++ [10]) (fst (framer buffer data)))
     ++ snd (framer buffer data)
     = buffer ++ toString data.
Proof.
  unfold framer, pop, js_split. cbn [fst snd].
  pose proof (split_go_free_all 10 [] (buffer ++ toString data) (Forall_nil_2 _)) as HF.
  pose proof (split_go_join 10 [] (buffer ++ toString data)) as HJ.
  destruct (split_go 10 [] (buffer ++ toString data)) as [|x l] eqn:E
    using rev_ind; [by destruct (split_go_nonempty 10 [] (buffer ++ toString data))|].
  clear IHl. rewrite removelast_last, last_snoc in *. cbn in *.
  apply Forall_app in HF as [HF1 HF2]. by inversion HF2.
Qed.

End Shapes.

(** *** The invariants on the reference platform *)

Lemma sends_only_when_open_witness :
  let s := {| clientId := decimal 1000; isChatWs := true; readyState := OPEN;
              recognitionProcess := None; chatProcess := Some 0%nat; sent := [] |} in
  exists s' new,
    sockets (step 1500 (ChildClose 0 (Some 1)) chat_session) !! 0%nat = Some s'
    /\ clientId s' = clientId s /\ isChatWs s' = isChatWs s
    /\ recognitionProcess s' = recognitionProcess s
    /\ chatProcess s' = chatProcess s
    /\ sent s' = sent s ++ new
    /\ (readyState s <> OPEN -> new = [])
    /\ ((forall p d, ChildClose 0 (Some 1) <> StdoutData p d) -> Forall is_notice new)
    /\ Forall (fun m => is_notice m
                        \/ from_output 0 (ChildClose 0 (Some 1)) chat_session m) new.
Proof.
  apply (sends_only_when_open 1500 (ChildClose 0 (Some 1)) chat_session 0).
  reflexivity.
Defined.

Lemma sent_messages_origin_witness :
  let evs := [(1000, Connection (lit "/ws") Spawned);
              (1001, StdoutData 0 (jbytes result_line ++ [Byte.x0a]))] in
  Forall (fun m => is_notice m \/ from_worker 0 evs m) [JSON_stringify result_value].
Proof.
  apply (sent_messages_origin
           [(1000, Connection (lit "/ws") Spawned);
            (1001, StdoutData 0 (jbytes result_line ++ [Byte.x0a]))]
           0
           {| clientId := decimal 1000; isChatWs := false; readyState := OPEN;
              recognitionProcess := Some 0%nat; chatProcess := None;
              sent := [JSON_stringify result_value] |}).
  vm_compute. reflexivity.
Defined.

Lemma registries_sound_witness :
  registry_sound Recognition (recognitionProcesses restarted_session) restarted_session
  /\ registry_sound Chat (chatProcesses restarted_session) restarted_session.
Proof. apply (registries_sound restarted_session). eexists. reflexivity. Defined.

Lemma input_isolation_witness :
  let c := new_child Chat (decimal 1000) 0 in
  let c' := push_stdin (jlit "{'query':'hello','timestamp':1001}" ++ [10]) c in
  (exists ins, stdin c' = stdin c ++ ins)
  /\ (stdin c' <> stdin c ->
      exists message,
        Message 0 (jbytes "{'type':'query','query':'hello'}") = Message (socket c) message).
Proof.
  apply (input_isolation 1001 (Message 0 (jbytes "{'type':'query','query':'hello'}"))
           chat_session 0).
  - eexists. reflexivity.
  - reflexivity.
  - reflexivity.
Defined.

Lemma restarted_worker_gets_no_input_witness :
  let st1 := run [(1000, Connection (lit "/chat") Spawned);
                  (1500, ChildClose 0 (Some 1))] initial in
  let t := {| due := 2500; timer_clientId := decimal 1000; timer_ws := 0 |} in
  let st2 := step 2500 (Timeout 0 Spawned) st1 in
  let evs := [(3000, Message 0 (jbytes "{'type':'query','query':'hello'}"))] in
  children st2 = children st1 ++ [new_child Chat (timer_clientId t) (timer_ws t)]
  /\ chatProcesses st2 !! timer_clientId t = Some (length (children st1))
  /\ stdin <$> children (run evs st2) !! length (children st1) = Some [].
Proof.
  apply (restarted_worker_gets_no_input
           (run [(1000, Connection (lit "/chat") Spawned);
                 (1500, ChildClose 0 (Some 1))] initial)
           2500 0 {| due := 2500; timer_clientId := decimal 1000; timer_ws := 0 |}
           [(3000, Message 0 (jbytes "{'type':'query','query':'hello'}"))]).
  - eexists. reflexivity.
  - reflexivity.
  - vm_compute. discriminate.
Defined.

(** After the restart the query of the client is written to the input of
    worker 0, which has exited; worker 1, the registered one, gets
    nothing. *)
Example query_after_restart :
  map stdin (children restarted_session)
  = [[jlit "{'query':'hello','timestamp':3000}" ++ [10]]; []]
  /\ map closed (children restarted_session) = [true; false]
  /\ chatProcesses restarted_session !! decimal 1000 = Some 1%nat.
Proof. vm_compute. repeat split. Qed.

Lemma output_isolation_witness :
  let st := run [(1000, Connection (lit "/ws") Spawned);
                 (1001, Connection (lit "/chat") Spawned)] initial in
  let st' := step 1002 (StdoutData 0 (jbytes result_line ++ [Byte.x0a])) st in
  (forall ws, ws <> 0%nat -> sockets st' !! ws = sockets st !! ws)
  /\ map stdin (children st') = map stdin (children st)
  /\ recognitionProcesses st' = recognitionProcesses st
  /\ chatProcesses st' = chatProcesses st
  /\ timers st' = timers st.
Proof.
  apply (output_isolation 1002 0 (jbytes result_line ++ [Byte.x0a])
           (run [(1000, Connection (lit "/ws") Spawned);
                 (1001, Connection (lit "/chat") Spawned)] initial)
           (new_child Recognition (decimal 1000) 0)).
  reflexivity.
Defined.

(** * The registration endpoint *)

Section RegisterProperties.
Context `{Platform}.

Lemma encoder_callback_spec env name name_text path e :
  responses e = [] -> inserts e = [] ->
  let e' := encoder_callback env name name_text path e in
  writes e' = writes e /\ commands e' = commands e
  /\ ((responses e' = [] /\ inserts e' = [] /\ db_reports env = false)
      \/ exists r, responses e' = [r]
         /\ ((status r = 500 /\ body r ∈ failure_bodies /\ inserts e' = [])
             \/ (status r = 400 /\ inserts e' = []
                 /\ exists out v, JSON_parse (exec_stdout env) = Normal out
                      /\ get_prop out (lit "error") = Normal (Some v)
                      /\ body r = JObj [(lit "error", v)])
             \/ (status r = 201 /\ body r = created_body name
                 /\ exec_error env = None /\ db_error env = None
                 /\ exists out encoding, JSON_parse (exec_stdout env) = Normal out
                      /\ get_prop out (lit "encoding") = Normal encoding
                      /\ inserts e' = [(name, JSON_stringify <$> encoding, path)]))).
Proof.
  intros Hr Hi. cbv zeta. unfold encoder_callback, save_failed.
  assert (forall text, error_body text ∈ failure_bodies ->
            forall m e1, responses e1 = [] -> inserts e1 = [] ->
              writes e1 = writes e -> commands e1 = commands e ->
              let e' := respond 500 (error_body text) (note error m e1) in
              writes e' = writes e /\ commands e' = commands e
              /\ ((responses e' = [] /\ inserts e' = [] /\ db_reports env = false)
                  \/ exists r, responses e' = [r]
                     /\ ((status r = 500 /\ body r ∈ failure_bodies /\ inserts e' = [])
                         \/ (status r = 400 /\ inserts e' = []
                             /\ exists out v, JSON_parse (exec_stdout env) = Normal out
                                  /\ get_prop out (lit "error") = Normal (Some v)
                                  /\ body r = JObj [(lit "error", v)])
                         \/ (status r = 201 /\ body r = created_body name
                             /\ exec_error env = None /\ db_error env = None
                             /\ exists out encoding,
                                  JSON_parse (exec_stdout env) = Normal out
                                  /\ get_prop out (lit "encoding") = Normal encoding
                                  /\ inserts e'
                                     = [(name, JSON_stringify <$> encoding, path)]))))
    as Hfail.
  { intros text Hin m e1 Hr1 Hi1 Hw1 Hc1. cbn. rewrite Hr1, Hi1.
    repeat split; try done. right. eexists. split; [done|]. left. by repeat split. }
  assert (forall text : string,
            text = "Face encoding failed"%string \/ text = "Failed to save face data"%string ->
            error_body text ∈ failure_bodies) as Hin.
  { intros text [-> | ->]; unfold failure_bodies; repeat constructor. }
  destruct (exec_error env) as [m|] eqn:Ee.
  { apply Hfail; try done. apply Hin. by left. }
  set (e1 := if bool_decide (exec_stderr env = []) then e else _).
  assert (responses e1 = [] /\ inserts e1 = [] /\ writes e1 = writes e
          /\ commands e1 = commands e) as (Hr1 & Hi1 & Hw1 & Hc1)
    by (unfold e1; by case_bool_decide).
  clearbody e1.
  destruct (JSON_parse (exec_stdout env)) as [out|m] eqn:Ep.
  2: { apply Hfail; try done. apply Hin. by right. }
  destruct (get_prop out (lit "error")) as [err|m] eqn:Eg.
  2: { apply Hfail; try done. apply Hin. by right. }
  destruct (truthy err) eqn:Et.
  - destruct (template err) as [text|m].
    + cbn. rewrite Hr1, Hi1. repeat split; try done. right. eexists. split; [done|].
      right. left. repeat split. destruct err as [v|]; [|done]. by exists out, v.
    + apply Hfail; try done. apply Hin. by right.
  - destruct (get_prop out (lit "encoding")) as [enc|m] eqn:Eenc.
    2: { apply Hfail; try done. apply Hin. by right. }
    destruct (db_reports env) eqn:Edr.
    2: { repeat split; try done. by left. }
    destruct (db_error env) as [m|] eqn:Ed.
    + apply Hfail; try done. apply Hin. by right.
    + cbn. rewrite Hr1, Hi1. repeat split; try done. right. eexists. split; [done|].
      right. right. repeat split. by exists out, enc.
Qed.

(** No request is answered twice, and an answer never carries the message
    of an exception: it is the validation refusal, one of three fixed
    failures, the [error] that the encoder itself reported, or the
    confirmation.  A row is reported inserted exactly when the answer is
    201.  A request stays without an answer only where [fs.writeFile], the
    encoder or [db.run] never reports; then no row is reported inserted
    either. *)
Theorem register_responds_at_most_once now env req_body :
  let e := register now env req_body in
  (responses e = [] /\ inserts e = []
   /\ (write_reports env = false \/ exec_reports env = false \/ db_reports env = false))
  \/ exists r, responses e = [r]
       /\ ((status r = 400 /\ body r = error_body "Name and image are required")
           \/ (status r = 500 /\ body r ∈ failure_bodies)
           \/ (status r = 400
               /\ exists out v, JSON_parse (exec_stdout env) = Normal out
                    /\ get_prop out (lit "error") = Normal (Some v)
                    /\ body r = JObj [(lit "error", v)])
           \/ (status r = 201
               /\ exists name, get_prop req_body (lit "name") = Normal name
                    /\ body r = created_body name))
       /\ (status r = 201 <-> inserts e <> []).
Proof.
  cbv zeta. unfold register, registration_failed.
  assert (error_body "Registration failed" ∈ failure_bodies) as Hin
    by (unfold failure_bodies; set_solver).
  destruct (get_prop req_body (lit "name")) as [name|m] eqn:En.
  2: { right. eexists. split; [done|]. split; [|done]. right. by left. }
  destruct (get_prop req_body (lit "image")) as [image|m] eqn:Ei.
  2: { right. eexists. split; [done|]. split; [|done]. right. by left. }
  destruct (negb (truthy name) || negb (truthy image)).
  { right. eexists. split; [done|]. split; [by left|done]. }
  destruct image as [[| | |base64Image| |]|];
    try (right; eexists; split; [done|]; split; [|done]; right; by left).
  destruct (write_reports env) eqn:Ewr; [|left; split; [done|]; split; [done|by left]].
  destruct (write_error env) as [m|].
  { right. eexists. split; [done|]. split; [|done]. right. by left. }
  destruct (template name) as [text|m].
  2: { right. eexists. split; [done|]. split; [|done]. right. by left. }
  destruct (exec_throws env) as [m|].
  { right. eexists. split; [done|]. split; [|done]. right. by left. }
  destruct (exec_reports env) eqn:Eer;
    [|left; split; [done|]; split; [done|right; by left]].
  match goal with |- context [encoder_callback env name text ?path ?e0] =>
    destruct (encoder_callback_spec env name text path e0)
      as (_ & _ & [(Hr & Hi & Hd)|(r & Hr & Hcases)]); [done|done| |]
  end.
  { left. split; [done|]. split; [done|]. right. by right. }
  right. exists r. split; [done|].
  destruct Hcases as [(Hs & Hb & Hi)|[(Hs & Hi & Hb)|(Hs & Hb & _ & _ & out & enc & _ & _ & Hi)]].
  - split; [by right; left|]. rewrite Hs, Hi. done.
  - split; [by right; right; left|]. rewrite Hs, Hi. done.
  - split; [right; right; right; split; [done|]; by exists name|].
    rewrite Hs, Hi. done.
Qed.

(** A request whose [name] or [image] is missing or falsy is refused with
    400 before anything else happens: no file is written, no command is
    run, no row is inserted. *)
Theorem register_validation now env req_body name image :
  get_prop req_body (lit "name") = Normal name ->
  get_prop req_body (lit "image") = Normal image ->
  truthy name = false \/ truthy image = false ->
  register now env req_body
  = respond 400 (error_body "Name and image are required")
      (note warn (lit "Registration attempt with missing name or image") no_effects).
Proof.
  intros Hn Hi Hf. unfold register. rewrite Hn, Hi.
  by destruct Hf as [-> | ->]; rewrite ?orb_true_r.
Qed.


(** Two uploads handled within the same millisecond are written to the
    same file: the path depends on the time alone. *)
Theorem register_same_millisecond_same_file now env1 env2 body1 body2 p1 d1 p2 d2 :
  path_join env1 = path_join env2 -> uploadsDir env1 = uploadsDir env2 ->
  writes (register now env1 body1) = [(p1, d1)] ->
  writes (register now env2 body2) = [(p2, d2)] ->
  p1 = p2.
Proof.
  intros Hj Hu.
  assert (forall env req_body p d,
            writes (register now env req_body) = [(p, d)] -> p = image_path now env) as Hp.
  { intros env req_body p d. unfold register, registration_failed, image_path.
    repeat case_match; try (by intros [=]).
    all: try match goal with |- context [encoder_callback ?e ?n ?t ?path ?e0] =>
           destruct (encoder_callback_spec e n t path e0) as (-> & _); [done|done|]
         end.
    all: by intros [= <- _]. }
  intros H1%Hp H2%Hp. subst. unfold image_path. by rewrite Hj, Hu.
Qed.

End RegisterProperties.

(** * The client *)

Section ClientProperties.
Context `{Platform}.




Lemma tab_step_bound ev t :
  (length (frames (tab_step ev t)) + (if processing (tab_step ev t) then 0 else 1)
   <= length (frames t) + (if processing t then 0 else 1)
      + (if is_message ev then 1 else 0))%nat.
Proof.
  destruct ev as [ready imageData|data| | |]; cbn;
    try (destruct (processing t); lia).
  unfold captureAndSendFrame.
  destruct (processing t) eqn:Hp; [rewrite Hp; lia|].
  destruct (connection t) as [[]|]; rewrite ?Hp; try lia.
  destruct ready; cbn; rewrite ?Hp, ?length_app; cbn; lia.
Qed.

(** The frames that the tab has sent exceed the messages that it has
    received by at most one, and by none while it is not waiting.  Every
    message counts, a result as much as an error or a notice, since
    [onmessage] clears the flag for any of them: the bound is on messages
    received, not on frames answered. *)
Theorem tab_frames_bounded_by_messages evs t :
  (length (frames (tab_run evs t)) + (if processing (tab_run evs t) then 0 else 1)
   <= length (frames t) + (if processing t then 0 else 1)
      + length (filter (fun ev => is_message ev = true) evs))%nat.
Proof.
  revert t. induction evs as [|ev evs IH]; intros t; [cbn; lia|].
  change (tab_run (ev :: evs) t) with (tab_run evs (tab_step ev t)).
  specialize (IH (tab_step ev t)). pose proof (tab_step_bound ev t) as Hs.
  rewrite filter_cons. destruct (is_message ev); cbn [length].
  - rewrite decide_True by done. cbn [length]. lia.
  - rewrite decide_False by done. lia.
Qed.

(** While the tab waits for an answer, nothing but a message from the
    server lets it send again: ticks, the socket closing, a new socket
    being made and opening all leave it waiting, and no frame is sent. *)
Theorem tab_waits_for_reply evs t :
  processing t = true ->
  Forall (fun ev => is_message ev = false) evs ->
  processing (tab_run evs t) = true /\ frames (tab_run evs t) = frames t.
Proof.
  intros Hp Hevs. revert t Hp.
  induction Hevs as [|ev evs Hev _ IH]; intros t Hp; [done|].
  change (tab_run (ev :: evs) t) with (tab_run evs (tab_step ev t)).
  assert (processing (tab_step ev t) = true /\ frames (tab_step ev t) = frames t)
    as [Hp' Hf'].
  { destruct ev as [ready imageData|data| | |]; try done.
    cbn. unfold captureAndSendFrame. by rewrite Hp. }
  destruct (IH _ Hp') as [-> ->]. done.
Qed.

Lemma digit_cases c :
  is_digit c = true ->
  c = 48 \/ c = 49 \/ c = 50 \/ c = 51 \/ c = 52 \/ c = 53 \/ c = 54 \/ c = 55
  \/ c = 56 \/ c = 57.
Proof.
  unfold is_digit, between. intros [H1 H2]%andb_prop.
  apply N.leb_le in H1, H2. lia.
Qed.

Lemma read_digits_decimal ds rest a :
  forallb is_digit ds = true ->
  read_digits 10 (Some a) (ds ++ 46 :: rest) = Some (digits_value a ds).
Proof.
  revert a. induction ds as [|c ds IH]; intros a Hds; [done|].
  cbn [forallb] in Hds. apply andb_prop in Hds as [Hc Hds].
  cbn [app read_digits digits_value]. rewrite Hc.
  assert (digit_in 10 c = Some (c - 48)) as ->.
  { unfold digit_in. rewrite Hc.
    destruct (digit_cases c Hc) as [->|[->|[->|[->|[->|[->|[->|[->|[->| ->]]]]]]]]];
      reflexivity. }
  cbn [default]. by apply IH.
Qed.

Lemma parseInt_digits ds rest :
  ds <> [] -> forallb is_digit ds = true ->
  parseInt (ds ++ 46 :: rest) = to_number false (digits_value 0 ds).
Proof.
  intros Hne Hds. destruct ds as [|c ds]; [done|].
  pose proof Hds as Hall. cbn [forallb] in Hds. apply andb_prop in Hds as [Hc Hds].
  unfold parseInt.
  assert (trimStart ((c :: ds) ++ 46 :: rest) = c :: ds ++ 46 :: rest) as ->.
  { cbn [app trimStart].
    by destruct (digit_cases c Hc) as [->|[->|[->|[->|[->|[->|[->|[->|[->| ->]]]]]]]]]. }
  assert ((c =? 45) = false /\ (c =? 43) = false) as [-> ->].
  { by destruct (digit_cases c Hc) as [->|[->|[->|[->|[->|[->|[->|[->|[->| ->]]]]]]]]]. }
  assert (match ds ++ 46 :: rest with
          | c1 :: r =>
              if (c =? 48) && ((c1 =? 120) || (c1 =? 88)) then (16, r)
              else (10, c :: ds ++ 46 :: rest)
          | [] => (10, c :: ds ++ 46 :: rest)
          end = (10, c :: ds ++ 46 :: rest)) as Hradix.
  { destruct ds as [|c1 ds]; cbn [app].
    - by rewrite andb_false_r.
    - cbn [forallb] in Hds. apply andb_prop in Hds as [Hc1 _].
      assert (((c1 =? 120) || (c1 =? 88)) = false) as ->
        by (by destruct (digit_cases c1 Hc1)
              as [->|[->|[->|[->|[->|[->|[->|[->|[->| ->]]]]]]]]]).
      by rewrite andb_false_r. }
  destruct (ds ++ 46 :: rest) as [|c1 r] eqn:Etail.
  { by destruct ds. }
  rewrite Hradix, <- Etail.
  assert (read_digits 10 None (c :: ds ++ 46 :: rest)
          = read_digits 10 (Some 0) ((c :: ds) ++ 46 :: rest)) as ->.
  { by destruct (digit_cases c Hc) as [->|[->|[->|[->|[->|[->|[->|[->|[->| ->]]]]]]]]]. }
  by rewrite read_digits_decimal.
Qed.

Lemma nearest_double_exact n : n < 2 ^ 53 -> nearest_double n = Some n.
Proof.
  intros Hn. unfold nearest_double.
  destruct (N.size n <=? 53) eqn:Hs; [done|].
  apply N.leb_gt in Hs.
  destruct (N.eq_dec n 0) as [->|Hn0]; [done|].
  pose proof (N.size_le n) as Hle.
  assert (2 ^ 54 <= 2 ^ N.size n) by (apply N.pow_le_mono_r; lia).
  assert (2 ^ 54 = 2 * 2 ^ 53) as Heq by reflexivity.
  lia.
Qed.

(** A rate with a fraction is cut at the point.  For a value [ds.rest] of
    at most 20 digits before the point, the rate that [handleFpsChange]
    sets is the Number nearest to the integer [ds]: the integer itself
    below 2^53.  For a value below one the rate is zero, and the delay
    [1000 / fps] of the interval is infinite. *)
Theorem handleFpsChange_drops_fraction isStreaming ds rest :
  ds <> [] -> forallb is_digit ds = true -> (length ds <= 20)%nat ->
  let newFps := fst (handleFpsChange isStreaming (ds ++ 46 :: rest)) in
  newFps = to_number false (digits_value 0 ds)
  /\ (digits_value 0 ds < 2 ^ 53 -> newFps = Finite false (digits_value 0 ds))
  /\ (digits_value 0 ds = 0 -> delay newFps = Unbounded false).
Proof.
  intros Hne Hds _. cbv zeta. unfold handleFpsChange. cbn [fst].
  rewrite (parseInt_digits ds rest Hne Hds).
  split; [done|]. split.
  - intros Hlt. unfold to_number. by rewrite nearest_double_exact.
  - intros ->. reflexivity.
Qed.

End ClientProperties.

(** *** The endpoint and the client on the reference platform *)

Lemma register_validation_witness :
  register 1000 all_succeed (JObj [(lit "name", JStr []); (lit "image", JNum (lit "0e5"))])
  = respond 400 (error_body "Name and image are required")
      (note warn (lit "Registration attempt with missing name or image") no_effects).
Proof.
  apply (register_validation 1000 all_succeed
           (JObj [(lit "name", JStr []); (lit "image", JNum (lit "0e5"))])
           (Some (JStr [])) (Some (JNum (lit "0e5")))).
  - reflexivity.
  - reflexivity.
  - left. reflexivity.
Defined.


Lemma register_same_millisecond_same_file_witness :
  lit "uploads/face_1000.jpg" = lit "uploads/face_1000.jpg".
Proof.
  apply (register_same_millisecond_same_file 1000 all_succeed all_succeed
           (JObj [(lit "name", JStr (lit "Ada")); (lit "image", JStr (lit "AAAA"))])
           (JObj [(lit "name", JStr (lit "Grace")); (lit "image", JStr (lit "BBBB"))])
           (lit "uploads/face_1000.jpg") (lit "AAAA")
           (lit "uploads/face_1000.jpg") (lit "BBBB")).
  - reflexivity.
  - reflexivity.
  - vm_compute. reflexivity.
  - vm_compute. reflexivity.
Defined.


(** What is written for a JPEG capture and for the capture of an empty
    canvas, and the answer to the latter. *)
Example captures_written :
  writes (register 1000 all_succeed
            (JObj [(lit "name", JStr (lit "Ada"));
                   (lit "image", JStr (lit "data:image/jpeg;base64,/9j/4AAQ"))]))
  = [(lit "uploads/face_1000.jpg", lit "/9j/4AAQ")]
  /\ writes (register 1000 all_succeed
               (JObj [(lit "name", JStr (lit "Ada")); (lit "image", JStr (lit "data:,"))]))
     = [(lit "uploads/face_1000.jpg", lit "data:,")]
  /\ map status (responses (register 1000 all_succeed
               (JObj [(lit "name", JStr (lit "Ada")); (lit "image", JStr (lit "data:,"))])))
     = [201].
Proof. vm_compute. repeat split. Qed.

(** A request whose encoder never exits: the image is written, the
    encoder is called, and the request is never answered. *)
Example register_unanswered :
  let e := register 1000 encoder_hangs
             (JObj [(lit "name", JStr (lit "Ada")); (lit "image", JStr (lit "AAAA"))]) in
  responses e = [] /\ inserts e = []
  /\ writes e = [(lit "uploads/face_1000.jpg", lit "AAAA")]
  /\ commands e = [jlit "python face_encoder.py 'uploads/face_1000.jpg' 'Ada'"].
Proof. vm_compute. repeat split. Qed.

Lemma tab_waits_for_reply_witness :
  let t := {| processing := true; connection := Some OPEN;
              frames := [jlit "{'type':'frame','image':'data:,'}"] |} in
  let evs := [Tick true (lit "data:,"); SocketClosed; ConnectWebSocket; SocketOpened;
              Tick true (lit "data:,")] in
  processing (tab_run evs t) = true /\ frames (tab_run evs t) = frames t.
Proof.
  apply (tab_waits_for_reply
           [Tick true (lit "data:,"); SocketClosed; ConnectWebSocket; SocketOpened;
            Tick true (lit "data:,")]
           {| processing := true; connection := Some OPEN;
              frames := [jlit "{'type':'frame','image':'data:,'}"] |}).
  - reflexivity.
  - repeat constructor.
Defined.

(** A notice from the server frees the tab like a result does: after it a
    second frame is sent while the first has not been answered. *)
Example notice_frees_the_tab :
  let notice :=
    jlit "{'type':'system','message':'Failed to start recognition service. Please try again.'}" in
  let t := tab_run [ConnectWebSocket; SocketOpened; Tick true (lit "data:,");
                    ServerMessage notice; Tick true (lit "data:,")] mounted in
  length (frames t) = 2%nat /\ processing t = true.
Proof. vm_compute. split; reflexivity. Qed.

Lemma handleFpsChange_drops_fraction_witness :
  let newFps := fst (handleFpsChange false (lit "0.5")) in
  newFps = to_number false (digits_value 0 (lit "0"))
  /\ (digits_value 0 (lit "0") < 2 ^ 53 -> newFps = Finite false (digits_value 0 (lit "0")))
  /\ (digits_value 0 (lit "0") = 0 -> delay newFps = Unbounded false).
Proof.
  apply (handleFpsChange_drops_fraction false (lit "0") (lit "5")).
  - discriminate.
  - reflexivity.
  - cbn. lia.
Defined.

(** The rates of the selector, and the delays that the next stream runs
    at: the half rate becomes zero, its delay infinite.  A rate past 2^53
    is rounded. *)
Example rates_of_the_selector :
  map (fun value => fst (handleFpsChange false value)) [lit "0.5"; lit "1"; lit "2"]
  = [Finite false 0; Finite false 1; Finite false 2]
  /\ map (fun value => delay (fst (handleFpsChange false value)))
       [lit "0.5"; lit "1"; lit "2"]
     = [Unbounded false; Quotient false 1; Quotient false 2]
  /\ parseInt (lit "9007199254740993.5") = Finite false 9007199254740992.
Proof. vm_compute. repeat split. Qed.
